(** * Optimistic checklist synchronisation of the note component

    A shallow embedding of [src/components/note.tsx] (the five checklist
    handlers of the [Note] component and the wiring of its item rows) and of
    [src/components/checklist-item.tsx] (the keyboard and blur handlers of a
    checklist row), followed by the properties of the specification that can
    be settled on them.

    Conventions of the embedding:
    - a JS array is a [list]; an array index or a [number] that only ever
      holds an index, a length or an [order] is a [Z], so that the [-1] of
      [findIndex] and [lastIndexOf] is an ordinary value;
    - a field declared [f?: T | null] is a [nullable T]
      ([undefined], [null] or a value); a field declared [f?: T] is an
      [option T];
    - an asynchronous handler is a tree of effects ([Prog]): the calls of
      [onUpdate], the calls of [console.error] and the single [fetch] with
      the continuation that receives its outcome;
    - [Date.now()], [Math.random()] and [new Date().toISOString()] are read
      from the environment: they are parameters of the handlers. *)

From stdpp Require Import base numbers list strings sorting.

Open Scope string_scope.
Open Scope list_scope.
Open Scope Z_scope.

(** ** JavaScript values and array methods used by the components *)

Inductive nullable (A : Type) : Type :=
  | undefined
  | null
  | value (a : A).
Arguments undefined {A}.
Arguments null {A}.
Arguments value {A} a.

Definition is_nullish {A} (v : nullable A) : bool :=
  match v with value _ => false | _ => true end.

Module Js.

(** [Array.prototype.every]. *)
Definition every {A} (p : A → bool) (l : list A) : bool := forallb p l.

(** [Array.prototype.findIndex]: the loop over [k = 0, 1, ...] that returns
    the first [k] whose element satisfies the predicate, [-1] if none. *)
Fixpoint findIndex_from {A} (p : A → bool) (k : Z) (l : list A) : Z :=
  match l with
  | [] => -1
  | x :: l' => if p x then k else findIndex_from p (k + 1) l'
  end.

Definition findIndex {A} (p : A → bool) (l : list A) : Z :=
  findIndex_from p 0 l.

(** [Array.prototype.lastIndexOf] on an array of booleans (strict equality
    on booleans is [Bool.eqb]): the greatest index holding [v], [-1] if
    none. The scan goes left to right and remembers the last hit. *)
Fixpoint lastIndexOf_from (v : bool) (k : Z) (hit : Z) (l : list bool) : Z :=
  match l with
  | [] => hit
  | x :: l' => lastIndexOf_from v (k + 1) (if Bool.eqb x v then k else hit) l'
  end.

Definition lastIndexOf (l : list bool) (v : bool) : Z :=
  lastIndexOf_from v 0 (-1) l.

(** [Array.prototype.map] with the two-argument callback [(item, index)]. *)
Definition mapi {A B} (f : A → Z → B) (l : list A) : list B :=
  imap (λ i x, f x (Z.of_nat i)) l.

(** [Array.prototype.sort] is stable; for a comparator [a.k - b.k] on
    integers it yields the stable ascending order. Insertion keeps an
    element in front of the later elements with an equal key. *)
Fixpoint sort_insert {A} (key : A → Z) (x : A) (l : list A) : list A :=
  match l with
  | [] => [x]
  | y :: l' => if key x <=? key y then x :: y :: l' else y :: sort_insert key x l'
  end.

Definition sort_by {A} (key : A → Z) (l : list A) : list A :=
  foldr (sort_insert key) [] l.

(** [String.prototype.trim] on strings whose code units are below 256.
    The white space and line terminators of ECMAScript in that range are
    TAB, LF, VT, FF, CR, SP and NBSP. *)
Definition is_space (c : Ascii.ascii) : bool :=
  match Ascii.N_of_ascii c with
  | 9 | 10 | 11 | 12 | 13 | 32 | 160 => true
  | _ => false
  end%N.

Fixpoint trimStart (s : string) : string :=
  match s with
  | EmptyString => EmptyString
  | String c s' => if is_space c then trimStart s' else s
  end.

Definition trimEnd (s : string) : string :=
  String.rev (trimStart (String.rev s)).

Definition trim (s : string) : string := trimEnd (trimStart s).

(** A draft made of white space only. *)
Fixpoint blank (s : string) : bool :=
  match s with
  | EmptyString => true
  | String c s' => is_space c && blank s'
  end.

(** Truthiness of a string: every string but the empty one. *)
Definition truthy (s : string) : bool :=
  match s with EmptyString => false | _ => true end.

End Js.

(** ** Data model *)

Module ChecklistItem.

(** [interface ChecklistItem] of checklist-item.tsx. *)
Record t : Type := mk {
  id : string;
  content : string;
  checked : bool;
  order : Z;
}.

(** Object spreads [{ ...item, f: v }]. *)
Definition with_checked (i : t) (b : bool) : t :=
  mk (id i) (content i) b (order i).
Definition with_content (i : t) (c : string) : t :=
  mk (id i) c (checked i) (order i).
Definition with_order (i : t) (n : Z) : t :=
  mk (id i) (content i) (checked i) n.

End ChecklistItem.
Abbreviation ChecklistItem := ChecklistItem.t.

Module Note.

Record author : Type := mk_author {
  author_id : string;
  name : nullable string;
  email : string;
  image : nullable string;
}.

Record board_ref : Type := mk_board_ref {
  board_id : string;
  board_name : string;
}.

(** [interface Note] of note.tsx. The layout numbers are carried along
    untouched by every handler. *)
Record t : Type := mk {
  id : string;
  color : string;
  archivedAt : nullable string;
  createdAt : string;
  updatedAt : string;
  checklistItems : option (list ChecklistItem);
  user : author;
  board : option board_ref;
  boardId : string;
  x : option Z;
  y : option Z;
  width : option Z;
  height : option Z;
}.

(** [{ ...note, checklistItems: items }]. *)
Definition with_items (n : t) (items : list ChecklistItem) : t :=
  mk (id n) (color n) (archivedAt n) (createdAt n) (updatedAt n)
     (Some items) (user n) (board n) (boardId n)
     (x n) (y n) (width n) (height n).

(** [{ ...note, checklistItems: items, archivedAt: a }]. *)
Definition with_items_archived (n : t) (items : list ChecklistItem)
    (a : nullable string) : t :=
  mk (id n) (color n) a (createdAt n) (updatedAt n)
     (Some items) (user n) (board n) (boardId n)
     (x n) (y n) (width n) (height n).

End Note.
Abbreviation Note := Note.t.

(** ** The persistence boundary *)

(** The object handed to [JSON.stringify]: [checklistItems] is always there,
    [archivedAt] is [undefined] when the object literal has no such key. *)
Record RequestBody : Type := mk_body {
  body_checklistItems : list ChecklistItem;
  body_archivedAt : nullable string;
}.

Record Request : Type := mk_request {
  url : string;
  method : string;
  body : RequestBody;
}.

(** [`/api/boards/${boardId}/notes/${noteId}`] *)
Definition note_url (boardId noteId : string) : string :=
  "/api/boards/" +:+ boardId +:+ "/notes/" +:+ noteId.

Definition PUT (boardId noteId : string) (b : RequestBody) : Request :=
  mk_request (note_url boardId noteId) "PUT" b.

(** What the handlers read of a [Response]: [ok], and the [note] member of
    the parsed body ([None] when [response.json()] rejects). *)
Record Response : Type := mk_response {
  ok : bool;
  json : option Note;
}.

(** The promise returned by [fetch] either rejects (the request never
    completed) or resolves with a response of any status. *)
Inductive FetchOutcome : Type :=
  | Rejects
  | Resolves (response : Response).

(** ** Handlers as effect trees *)

(** [OnUpdate n] is the call [onUpdate?.(n)], [ConsoleError m] the call
    [console.error(m, ...)], [Fetch req k] the call [fetch(...)] followed by
    what the handler does with its outcome. *)
Inductive Prog : Type :=
  | Return
  | OnUpdate (n : Note) (k : Prog)
  | ConsoleError (msg : string) (k : Prog)
  | Fetch (req : Request) (k : FetchOutcome → Prog).

(** The values the handlers read from the clock and the random source. *)
Record Env : Type := mk_env {
  date_now : string;        (* decimal rendering of [Date.now()] *)
  random_suffix : string;   (* [Math.random().toString(36).substr(2, 9)] *)
  iso_now : string;         (* [new Date().toISOString()] *)
}.

(** The reorder guard of [handleReorderChecklistItems]:
    "Disallow unchecked items to be after checked items". *)
Definition unchecked_after_checked (newItems : list ChecklistItem) : bool :=
  let firstCheckedIndex := Js.findIndex ChecklistItem.checked newItems in
  let lastUncheckedIndex :=
    Js.lastIndexOf (ChecklistItem.checked <$> newItems) false in
  negb (firstCheckedIndex =? -1)
  && negb (lastUncheckedIndex =? -1)
  && (lastUncheckedIndex >? firstCheckedIndex).

Section Handlers.

(** Props of the [Note] component read by the handlers, and the
    environment of the call. *)
Variable note : Note.
Variable syncDB : bool.
Variable env : Env.

Definition handleToggleChecklistItem (itemId : string) : Prog :=
  match Note.checklistItems note with
  | None => Return
  | Some items =>
    let updatedItems :=
      (λ item, if String.eqb (ChecklistItem.id item) itemId
               then ChecklistItem.with_checked item
                      (negb (ChecklistItem.checked item))
               else item) <$> items in
    let sortedItems := Js.sort_by ChecklistItem.order updatedItems in
    let optimisticNote := Note.with_items note sortedItems in
    OnUpdate optimisticNote
      (if syncDB then
         Fetch (PUT (Note.boardId note) (Note.id note)
                    (mk_body sortedItems undefined))
           (λ outcome,
              match outcome with
              | Resolves response =>
                if negb (ok response) then
                  ConsoleError "Server error, reverting optimistic update"
                    (OnUpdate note Return)
                else
                  match json response with
                  | Some updatedNote => OnUpdate updatedNote Return
                  | None =>
                    ConsoleError "Error toggling checklist item:"
                      (OnUpdate note Return)
                  end
              | Rejects =>
                ConsoleError "Error toggling checklist item:"
                  (OnUpdate note Return)
              end)
       else Return)
  end.

(** The tail shared by delete, edit, reorder and add: the awaited
    response inside [try], and the [catch] that only logs. *)
Definition after_await (log : string) (outcome : FetchOutcome) : Prog :=
  match outcome with
  | Resolves response =>
    if ok response then
      match json response with
      | Some updatedNote => OnUpdate updatedNote Return
      | None => ConsoleError log Return
      end
    else OnUpdate note Return
  | Rejects => ConsoleError log Return
  end.

Definition handleDeleteChecklistItem (itemId : string) : Prog :=
  match Note.checklistItems note with
  | None => Return
  | Some items =>
    let updatedItems :=
      List.filter
        (λ item, negb (String.eqb (ChecklistItem.id item) itemId)) items in
    let optimisticNote := Note.with_items note updatedItems in
    OnUpdate optimisticNote
      (if syncDB then
         Fetch (PUT (Note.boardId note) (Note.id note)
                    (mk_body updatedItems undefined))
           (after_await "Error deleting checklist item:")
       else Return)
  end.

Definition handleEditChecklistItem (itemId content : string) : Prog :=
  match Note.checklistItems note with
  | None => Return
  | Some items =>
    let updatedItems :=
      (λ item, if String.eqb (ChecklistItem.id item) itemId
               then ChecklistItem.with_content item content
               else item) <$> items in
    let optimisticNote := Note.with_items note updatedItems in
    OnUpdate optimisticNote
      (if syncDB then
         Fetch (PUT (Note.boardId note) (Note.id note)
                    (mk_body updatedItems undefined))
           (after_await "Error editing checklist item:")
       else Return)
  end.

Definition handleReorderChecklistItems
    (noteId : string) (newItems : list ChecklistItem) : Prog :=
  match Note.checklistItems note with
  | None => Return
  | Some _ =>
    let allItemsChecked := Js.every ChecklistItem.checked newItems in
    if unchecked_after_checked newItems then Return
    else
      let updatedItems :=
        Js.mapi (λ item index, ChecklistItem.with_order item index)
                newItems in
      let optimisticNote := Note.with_items note updatedItems in
      OnUpdate optimisticNote
        (if syncDB then
           Fetch (PUT (Note.boardId note) noteId
                      (mk_body updatedItems
                         (if allItemsChecked then value (iso_now env)
                          else null)))
             (after_await "Failed to reorder checklist item:")
         else Return)
  end.

Definition handleAddChecklistItem (content : string) : Prog :=
  let existing := default [] (Note.checklistItems note) in
  let newItem :=
    ChecklistItem.mk
      ("item_" +:+ date_now env +:+ "_" +:+ random_suffix env)
      content
      false
      (Z.of_nat (length existing)) in
  let allItemsChecked :=
    Js.every ChecklistItem.checked (existing ++ [newItem]) in
  let optimisticNote :=
    Note.with_items_archived note (existing ++ [newItem])
      (if allItemsChecked then value (iso_now env) else null) in
  OnUpdate optimisticNote
    (if syncDB then
       Fetch (PUT (Note.boardId note) (Note.id note)
                  (mk_body (existing ++ [newItem]) undefined))
         (after_await "Error adding checklist item:")
     else Return).

End Handlers.

(** ** Running a handler *)

(** What a handler can touch: the note held by the parent (set by
    [onUpdate]), the requests sent so far and the console. *)
Record World : Type := mk_world {
  current : Note;
  sent : list Request;
  console : list string;
}.

Definition set_current (n : Note) (w : World) : World :=
  mk_world n (sent w) (console w).
Definition push_sent (r : Request) (w : World) : World :=
  mk_world (current w) (sent w ++ [r]) (console w).
Definition push_console (m : string) (w : World) : World :=
  mk_world (current w) (sent w) (console w ++ [m]).

(** The whole handler, with the network answering [net req]. *)
Fixpoint run (net : Request → FetchOutcome) (p : Prog) (w : World) : World :=
  match p with
  | Return => w
  | OnUpdate n k => run net k (set_current n w)
  | ConsoleError m k => run net k (push_console m w)
  | Fetch req k => run net (k (net req)) (push_sent req w)
  end.

(** The handler up to the point where it waits for the network: the
    optimistic state, and the request in flight. *)
Fixpoint run_sync (p : Prog) (w : World) : World :=
  match p with
  | Return => w
  | OnUpdate n k => run_sync k (set_current n w)
  | ConsoleError m k => run_sync k (push_console m w)
  | Fetch req _ => push_sent req w
  end.

(** The parent holds [note] and nothing has been sent or logged. *)
Definition start (note : Note) : World := mk_world note [] [].

(** The note on screen while the request is in flight. *)
Definition optimistic (note : Note) (p : Prog) : Note :=
  current (run_sync p (start note)).

(** The note on screen once the handler has finished. *)
Definition settled (net : Request → FetchOutcome) (note : Note) (p : Prog) : Note :=
  current (run net p (start note)).

(** The request a handler leaves in flight (each handler calls [fetch] at
    most once, and does so before anything that depends on its outcome). *)
Fixpoint requests (p : Prog) : list Request :=
  match p with
  | Return => []
  | OnUpdate _ k => requests k
  | ConsoleError _ k => requests k
  | Fetch req _ => [req]
  end.

(** The notes a handler hands to [onUpdate], in order, with the network
    answering [net req]. *)
Fixpoint updates (net : Request → FetchOutcome) (p : Prog) : list Note :=
  match p with
  | Return => []
  | OnUpdate n k => n :: updates net k
  | ConsoleError _ k => updates net k
  | Fetch req k => updates net (k (net req))
  end.

(** A call that returned without mutating or persisting: [onUpdate] was not
    called and no request was sent. *)
Definition rejected (net : Request → FetchOutcome) (p : Prog) : Prop :=
  updates net p = [] ∧ requests p = [].

(** ** A checklist row (checklist-item.tsx) *)

Module ItemRow.

Record KeyboardEvent : Type := mk_key {
  key : string;
  shiftKey : bool;
}.

(** What a row handler does: DOM calls of its own, and whatever the
    callbacks of its parent do ([Act] is the parent's vocabulary). *)
Inductive Effect (Act : Type) : Type :=
  | PreventDefault
  | AdjustHeightLater
  | Call (a : Act).
Arguments PreventDefault {Act}.
Arguments AdjustHeightLater {Act}.
Arguments Call {Act} a.

Section WithParent.

Context {Act : Type}.

(** [ChecklistItemProps], without the styling and the refs to DOM
    nodes. An optional callback is an [option]. *)
Record Props : Type := mk_props {
  item : ChecklistItem;
  onToggle : option (string → list Act);
  onEdit : option (string → string → list Act);
  onDelete : option (string → list Act);
  isEditing : bool;
  editContent : option string;
  onEditContentChange : option (string → list Act);
  onStartEdit : option (string → list Act);
  onStopEdit : option (list Act);
  readonly : bool;
  showDeleteButton : bool;
  isNewItem : bool;
  onCreateItem : option (string → list Act);
}.

(** [cb?.(a)] *)
Definition call_opt {A} (cb : option (A → list Act)) (a : A)
    : list (Effect Act) :=
  match cb with
  | Some f => Call <$> f a
  | None => []
  end.

(** [cb?.()] *)
Definition call_opt0 (cb : option (list Act)) : list (Effect Act) :=
  match cb with
  | Some acts => Call <$> acts
  | None => []
  end.

Variable props : Props.

(** [isNewItem && editContent?.trim() && onCreateItem]: the callback
    and the trimmed draft when the conjunction is truthy. *)
Definition creating : option ((string → list Act) * string) :=
  if isNewItem props then
    match editContent props, onCreateItem props with
    | Some draft, Some create =>
      if Js.truthy (Js.trim draft) then Some (create, Js.trim draft)
      else None
    | _, _ => None
    end
  else None.

(** [handleBlur]. The mutable [deletingRef.current] is passed in and
    returned. *)
Definition handleBlur (deletingRef : bool) : list (Effect Act) * bool :=
  if deletingRef then ([], false)
  else
    ((match creating with
      | Some (create, draft) => Call <$> create draft
      | None =>
        match isEditing props, editContent props, onEdit props with
        | true, Some draft, Some edit =>
          Call <$> edit (ChecklistItem.id (item props)) draft
        | _, _, _ => []
        end
      end) ++ call_opt0 (onStopEdit props),
     deletingRef).

(** [handleKeyDown]: four independent tests on the key, in source
    order. [target.blur()] on the focused textarea runs [handleBlur]. *)
Definition handleKeyDown (e : KeyboardEvent) (deletingRef : bool)
    : list (Effect Act) * bool :=
  let '(enter, ref1) :=
    if String.eqb (key e) "Enter" && negb (shiftKey e) then
      match creating with
      | Some (create, draft) =>
        (PreventDefault :: (Call <$> create draft), deletingRef)
      | None =>
        let '(blur, ref') := handleBlur deletingRef in
        (PreventDefault :: blur, ref')
      end
    else ([], deletingRef) in
  let shift_enter :=
    if String.eqb (key e) "Enter" && shiftKey e
    then [AdjustHeightLater] else [] in
  let escape :=
    if String.eqb (key e) "Escape"
    then call_opt0 (onStopEdit props) else [] in
  let backspace :=
    if String.eqb (key e) "Backspace"
       && match editContent props with
          | Some draft => String.eqb (Js.trim draft) ""
          | None => false
          end
    then PreventDefault
         :: call_opt (onDelete props) (ChecklistItem.id (item props))
    else [] in
  (enter ++ shift_enter ++ escape ++ backspace, ref1).

End WithParent.
Arguments Props Act : clear implicits.

End ItemRow.

(** ** The rows of a note (note.tsx, below the handlers) *)

Module Board.

(** What the callbacks passed to a row do: call one of the five
    checklist handlers, or set one of the three pieces of [useState]. *)
Inductive Act : Type :=
  | Toggle (itemId : string)
  | Edit (itemId content : string)
  | Delete (itemId : string)
  | Add (content : string)
  | SetEditingItem (v : option string)
  | SetEditingItemContent (v : string)
  | SetNewItemContent (v : string).

Record UiState : Type := mk_ui {
  editingItem : option string;
  editingItemContent : string;
  newItemContent : string;
}.

Definition apply_act (ui : UiState) (a : Act) : UiState :=
  match a with
  | SetEditingItem v => mk_ui v (editingItemContent ui) (newItemContent ui)
  | SetEditingItemContent v => mk_ui (editingItem ui) v (newItemContent ui)
  | SetNewItemContent v => mk_ui (editingItem ui) (editingItemContent ui) v
  | _ => ui
  end.

Definition apply_acts (ui : UiState) (acts : list Act) : UiState :=
  foldl apply_act ui acts.

(** [interface User] of note.tsx. *)
Record User : Type := mk_user {
  user_id : string;
  user_name : nullable string;
  user_image : nullable string;
  user_email : string;
  isAdmin : option bool;
}.

Section WithNote.

Variable note : Note.
Variable currentUser : option User.
Variable readonly : bool.
Variable ui : UiState.

(** [!readonly && (currentUser?.id === note.user.id || currentUser?.isAdmin)] *)
Definition canEdit : bool :=
  negb readonly
  && match currentUser with
     | Some u =>
       String.eqb (user_id u) (Note.author_id (Note.user note))
       || default false (isAdmin u)
     | None => false
     end.

(** The value of that expression before it is read as a condition: [None]
    is [undefined], which [false || currentUser?.isAdmin] yields when the
    user is missing, or is not the author and has no [isAdmin] member. *)
Definition canEdit_value : option bool :=
  if readonly then Some false
  else match currentUser with
       | Some u =>
         if String.eqb (user_id u) (Note.author_id (Note.user note))
         then Some true
         else isAdmin u
       | None => None
       end.

Definition handleStartEditItem (itemId : string) : list Act :=
  match
    List.find (λ i, String.eqb (ChecklistItem.id i) itemId)
              (default [] (Note.checklistItems note))
  with
  | Some item =>
    if canEdit
    then [SetEditingItem (Some itemId);
          SetEditingItemContent (ChecklistItem.content item)]
    else []
  | None => []
  end.

Definition handleStopEditItem : list Act :=
  [SetEditingItem None; SetEditingItemContent ""].

Definition handleEditItem (itemId content : string) : list Act :=
  Edit itemId content :: handleStopEditItem.

Definition handleDeleteItem (itemId : string) : list Act :=
  Delete itemId :: handleStopEditItem.

Definition handleCreateNewItem (content : string) : list Act :=
  if Js.truthy (Js.trim content)
  then [Add (Js.trim content); SetNewItemContent ""]
  else [].

(** [editingItem === item.id] *)
Definition is_editing (item : ChecklistItem) : bool :=
  match editingItem ui with
  | Some i => String.eqb i (ChecklistItem.id item)
  | None => false
  end.

(** The props of the row rendered for an item of the note. The row is
    handed [showDeleteButton={canEdit}]; when that value is [undefined] the
    component takes its default, [showDeleteButton = true]. *)
Definition item_row (item : ChecklistItem) : ItemRow.Props Act :=
  ItemRow.mk_props
    item
    (Some (λ itemId, [Toggle itemId]))
    (Some handleEditItem)
    (Some handleDeleteItem)
    (is_editing item)
    (if is_editing item then Some (editingItemContent ui) else None)
    (Some (λ v, [SetEditingItemContent v]))
    (Some handleStartEditItem)
    (Some handleStopEditItem)
    readonly
    (default true canEdit_value)
    false
    None.

(** The props of the always-available new-item row. *)
Definition new_item_row : ItemRow.Props Act :=
  ItemRow.mk_props
    (ChecklistItem.mk "new-item" (newItemContent ui) false 0)
    None
    (Some (λ _ _, []))
    (Some (λ _, [SetNewItemContent ""]))
    true
    (Some (newItemContent ui))
    (Some (λ v, [SetNewItemContent v]))
    None
    (Some (if Js.truthy (Js.trim (newItemContent ui)) then []
           else [SetNewItemContent ""]))
    false
    false
    true
    (Some handleCreateNewItem).

End WithNote.

(** The calls of [handleDeleteChecklistItem] and of
    [handleEditChecklistItem] among the effects of a row handler. *)
Definition deletes (effs : list (ItemRow.Effect Act)) : list string :=
  omap (λ e, match e with ItemRow.Call (Delete i) => Some i | _ => None end) effs.

Definition edits (effs : list (ItemRow.Effect Act)) : list (string * string) :=
  omap (λ e, match e with ItemRow.Call (Edit i c) => Some (i, c) | _ => None end)
       effs.

(** The state after the [setState] calls among the effects. *)
Definition after (ui : UiState) (effs : list (ItemRow.Effect Act)) : UiState :=
  apply_acts ui
    (omap (λ e, match e with ItemRow.Call a => Some a | _ => None end) effs).

End Board.

(** ** Vocabulary of the specification *)

(** [n] is the index of the first checked item of [l]. *)
Definition first_checked (l : list ChecklistItem) (n : nat) : Prop :=
  ∃ x, l !! n = Some x ∧ ChecklistItem.checked x = true
       ∧ ∀ m y, (m < n)%nat → l !! m = Some y → ChecklistItem.checked y = false.

(** [n] is the index of the last unchecked item of [l]. *)
Definition last_unchecked (l : list ChecklistItem) (n : nat) : Prop :=
  ∃ x, l !! n = Some x ∧ ChecklistItem.checked x = false
       ∧ ∀ m y, (n < m)%nat → l !! m = Some y → ChecklistItem.checked y = true.

(** A checked item stands somewhere in front of an unchecked one. *)
Definition checked_before_unchecked (l : list ChecklistItem) : Prop :=
  ∃ i j a b, (i < j)%nat
    ∧ l !! i = Some a ∧ ChecklistItem.checked a = true
    ∧ l !! j = Some b ∧ ChecklistItem.checked b = false.

(** The flags are a run of [false] followed by a run of [true]. *)
Definition unchecked_then_checked (l : list ChecklistItem) : Prop :=
  ∃ u c, ChecklistItem.checked <$> l = replicate u false ++ replicate c true.

(** The checklist an accepted reorder shows and sends. *)
Definition reindexed (newItems : list ChecklistItem) : list ChecklistItem :=
  Js.mapi (λ item index, ChecklistItem.with_order item index) newItems.

(** The auto-archive rule of the data model, as a test on a note:
    [archivedAt] holds a timestamp exactly when the note has at least one
    checklist item and all of them are checked. *)
Definition archive_rule (n : Note) : bool :=
  Bool.eqb
    (negb (is_nullish (Note.archivedAt n)))
    (match Note.checklistItems n with
     | Some (i :: l) => forallb ChecklistItem.checked (i :: l)
     | _ => false
     end).

(** A network that answers every request with a response that is not ok
    (any status outside 200-299), and one on which every request fails. *)
Definition server_rejects (b : option Note) : Request → FetchOutcome :=
  λ _, Resolves (mk_response false b).

Definition network_down : Request → FetchOutcome := λ _, Rejects.

(** Sample data: the note of the concrete scenario of the specification. *)
Module Sample.

Definition a : ChecklistItem := ChecklistItem.mk "a" "x" false 0.
Definition b : ChecklistItem := ChecklistItem.mk "b" "y" false 1.
Definition a_done : ChecklistItem := ChecklistItem.mk "a" "x" true 0.
Definition b_done : ChecklistItem := ChecklistItem.mk "b" "y" true 1.
Definition c : ChecklistItem := ChecklistItem.mk "c" "z" false 2.

Definition owner : Note.author :=
  Note.mk_author "u1" (value "Ada") "ada@example.org" undefined.

Definition note_of (archived : nullable string)
    (items : option (list ChecklistItem)) : Note :=
  Note.mk "n1" "#fef3c7" archived
    "2024-01-01T00:00:00.000Z" "2024-01-01T00:00:00.000Z"
    items owner None "b1" None None None None.

Definition note : Note := note_of null (Some [a; b]).

Definition env : Env :=
  mk_env "1704067200000" "k3j9x0q1z" "2024-01-02T00:00:00.000Z".

Definition ada : Board.User :=
  Board.mk_user "u1" (value "Ada") undefined "ada@example.org" None.

Definition editing_a (draft : string) : Board.UiState :=
  Board.mk_ui (Some "a") draft "".

End Sample.

(** ** The controls of a row (checklist-item.tsx, the rendered elements) *)

Module ItemControls.

(** What the inline handlers of the checkbox, the textarea and the trash
    button do. *)
Inductive Effect (Act : Type) : Type :=
  | StopPropagation
  | MuteScrollIntoView
  | Call (a : Act).
Arguments StopPropagation {Act}.
Arguments MuteScrollIntoView {Act}.
Arguments Call {Act} a.

Definition calls {Act} (effs : list (Effect Act)) : list Act :=
  omap (λ e, match e with Call a => Some a | _ => None end) effs.

Section WithParent.

Context {Act : Type}.
Variable props : ItemRow.Props Act.

(** [cb?.(a)] *)
Definition call_opt {A} (cb : option (A → list Act)) (a : A)
    : list (Effect Act) :=
  match cb with
  | Some f => Call <$> f a
  | None => []
  end.

(** [onCheckedChange={() => !readonly && onToggle?.(item.id)}] *)
Definition checkbox_onCheckedChange : list (Effect Act) :=
  if negb (ItemRow.readonly props)
  then call_opt (ItemRow.onToggle props)
         (ChecklistItem.id (ItemRow.item props))
  else [].

(** [value={editContent ?? item.content}] *)
Definition textarea_value : string :=
  default (ChecklistItem.content (ItemRow.item props))
          (ItemRow.editContent props).

(** [onChange={(e) => onEditContentChange?.(e.target.value)}] *)
Definition textarea_onChange (v : string) : list (Effect Act) :=
  call_opt (ItemRow.onEditContentChange props) v.

(** [onFocus]: while editing, [scrollIntoView] of the textarea is replaced
    by a no-op for 100 ms; otherwise, unless readonly, editing starts. *)
Definition textarea_onFocus : list (Effect Act) :=
  (if ItemRow.isEditing props then [MuteScrollIntoView] else [])
  ++ (if negb (ItemRow.isEditing props) && negb (ItemRow.readonly props)
      then call_opt (ItemRow.onStartEdit props)
             (ChecklistItem.id (ItemRow.item props))
      else []).

(** [{showDeleteButton && !readonly && (<Button ...>)}] *)
Definition deleteButton_rendered : bool :=
  ItemRow.showDeleteButton props && negb (ItemRow.readonly props).

(** [onMouseDown={() => { deletingRef.current = true; }}] *)
Definition deleteButton_onMouseDown (deletingRef : bool) : bool := true.

(** [onClick={(e) => { e.stopPropagation(); onDelete?.(item.id); }}] *)
Definition deleteButton_onClick : list (Effect Act) :=
  StopPropagation
  :: call_opt (ItemRow.onDelete props) (ChecklistItem.id (ItemRow.item props)).

End WithParent.

End ItemControls.

(** ** The card of a note (note.tsx, the rendered elements) *)

Module Card.

(** [s.split(sep)[0]] for a one-character separator: the characters in
    front of its first occurrence, all of [s] when it does not occur. *)
Fixpoint split_first (sep : Ascii.ascii) (s : string) : string :=
  match s with
  | EmptyString => EmptyString
  | String c s' =>
    if Ascii.eqb c sep then EmptyString else String c (split_first sep s')
  end.

(** The separators [" "] and ["@"]. *)
Definition space : Ascii.ascii := Ascii.ascii_of_nat 32.
Definition at_sign : Ascii.ascii := Ascii.ascii_of_nat 64.

(** Truthiness of a [string | null | undefined]. *)
Definition truthy (v : nullable string) : bool :=
  match v with
  | value s => Js.truthy s
  | _ => false
  end.

(** The calls of the five checklist handlers among the actions of a
    callback; the rest only sets component state. *)
Definition is_handler_call (a : Board.Act) : bool :=
  match a with
  | Board.Toggle _ | Board.Edit _ _ | Board.Delete _ | Board.Add _ => true
  | _ => false
  end.

Definition handler_calls (acts : list Board.Act) : list Board.Act :=
  List.filter is_handler_call acts.

Definition adds (acts : list Board.Act) : list string :=
  omap (λ a, match a with Board.Add c => Some c | _ => None end) acts.

(** The actions called by a handler of [ItemRow]. *)
Definition row_calls (effs : list (ItemRow.Effect Board.Act))
    : list Board.Act :=
  omap (λ e, match e with ItemRow.Call a => Some a | _ => None end) effs.

Section WithProps.

Variable note : Note.
Variable syncDB : bool.
Variable env : Env.
Variable currentUser : option Board.User.
Variable readonly : bool.
Variable onArchive : bool.
Variable onUnarchive : bool.
Variable ui : Board.UiState.

(** The text next to the avatar:
    [note.user.name ? note.user.name.split(" ")[0]
                    : note.user.email.split("@")[0]] *)
Definition author_label : string :=
  match Note.name (Note.user note) with
  | value n =>
    if Js.truthy n then split_first space n
    else split_first at_sign (Note.email (Note.user note))
  | _ => split_first at_sign (Note.email (Note.user note))
  end.

(** [{canEdit && !note.archivedAt && (...)}] and the three other buttons
    of the header. *)
Definition copy_button : bool :=
  Board.canEdit note currentUser readonly
  && negb (truthy (Note.archivedAt note)).

Definition delete_button : bool := Board.canEdit note currentUser readonly.

Definition archive_button : bool :=
  Board.canEdit note currentUser readonly && onArchive.

Definition unarchive_button : bool :=
  Board.canEdit note currentUser readonly && onUnarchive.

(** [onItemsChange] of the [DraggableRoot]. *)
Definition onItemsChange (newItems : list ChecklistItem) : Prog :=
  if Board.canEdit note currentUser readonly
  then handleReorderChecklistItems note syncDB env (Note.id note) newItems
  else Return.

(** [note.checklistItems?.map((item) => ...)]: one row per item. *)
Definition rows : list (ItemRow.Props Board.Act) :=
  Board.item_row note currentUser readonly ui
  <$> default [] (Note.checklistItems note).

(** [{canEdit && (...)}]: the new-item row, and under it
    [{newItemContent.trim().length > 0 && (...)}] the additional one. *)
Definition new_item_rendered : bool :=
  Board.canEdit note currentUser readonly.

Definition additional_rendered : bool :=
  Board.canEdit note currentUser readonly
  && (0 <? Z.of_nat (String.length (Js.trim (Board.newItemContent ui)))).

Definition additional_row : ItemRow.Props Board.Act :=
  ItemRow.mk_props
    (ChecklistItem.mk "new-item-additional" "" false 1)
    None
    (Some (λ _ _, []))
    (Some (λ _, []))
    true
    (Some "")
    (Some (λ _, []))
    None
    (Some [])
    false
    false
    true
    (Some (λ content,
             if Js.truthy (Js.trim content)
             then [Board.Add (Js.trim content)]
             else [])).

(** What an action of a row callback runs. *)
Definition perform (a : Board.Act) : Prog :=
  match a with
  | Board.Toggle itemId => handleToggleChecklistItem note syncDB itemId
  | Board.Edit itemId content =>
    handleEditChecklistItem note syncDB itemId content
  | Board.Delete itemId => handleDeleteChecklistItem note syncDB itemId
  | Board.Add content => handleAddChecklistItem note syncDB env content
  | _ => Return
  end.

End WithProps.

End Card.

(** ** Vocabulary for the checklist of a note *)

(** The checklists the handlers build, by name. *)
Definition toggled (itemId : string) (items : list ChecklistItem)
    : list ChecklistItem :=
  (λ item, if String.eqb (ChecklistItem.id item) itemId
           then ChecklistItem.with_checked item
                  (negb (ChecklistItem.checked item))
           else item) <$> items.

Definition edited (itemId content : string) (items : list ChecklistItem)
    : list ChecklistItem :=
  (λ item, if String.eqb (ChecklistItem.id item) itemId
           then ChecklistItem.with_content item content
           else item) <$> items.

Definition without (itemId : string) (items : list ChecklistItem)
    : list ChecklistItem :=
  List.filter (λ item, negb (String.eqb (ChecklistItem.id item) itemId)) items.

(** The items stand in ascending [order]. *)
Definition ascending (items : list ChecklistItem) : Prop :=
  Sorted Z.le (ChecklistItem.order <$> items).

(** The orders are [0, 1, ..., n-1], in this order. *)
Definition dense (items : list ChecklistItem) : Prop :=
  ChecklistItem.order <$> items = Z.of_nat <$> seq 0 (length items).

(** No item of the checklist has this id. *)
Definition absent (itemId : string) (items : list ChecklistItem) : Prop :=
  Forall (λ item, ChecklistItem.id item ≠ itemId) items.

(** The string is empty or starts with a character that is no white
    space. *)
Definition starts_clean (s : string) : Prop :=
  match s with
  | EmptyString => True
  | String c _ => Js.is_space c = false
  end.

(** The characters of a string. *)
Fixpoint chars (s : string) : list Ascii.ascii :=
  match s with
  | EmptyString => []
  | String c s' => c :: chars s'
  end.

(** A network that answers every request with an ok response carrying the
    canonical note [n], and one whose ok responses cannot be parsed. *)
Definition server_accepts (n : Note) : Request → FetchOutcome :=
  λ _, Resolves (mk_response true (Some n)).


(** ** Facts about the array methods *)

Section ArrayFacts.

Context {A : Type} (p : A → bool).

Lemma findIndex_from_miss k l :
  Forall (λ x, p x = false) l → Js.findIndex_from p k l = -1.
Proof.
  intros H. revert k. induction H as [|x l Hx _ IH]; intros k; simpl.
  - reflexivity.
  - rewrite Hx. apply IH.
Qed.

Lemma findIndex_from_hit k l n x :
  l !! n = Some x → p x = true →
  (∀ m y, (m < n)%nat → l !! m = Some y → p y = false) →
  Js.findIndex_from p k l = k + Z.of_nat n.
Proof.
  revert k n. induction l as [|z l IH]; intros k n Hn Hx Hlow.
  - discriminate.
  - destruct n as [|n]; simpl in *.
    + injection Hn as ->. rewrite Hx. lia.
    + rewrite (Hlow 0%nat z) by (simpl; (lia || done)).
      rewrite (IH (k + 1) n Hn Hx).
      * lia.
      * intros m y Hm Hy. apply (Hlow (S m) y); [lia | done].
Qed.

(** The first element that satisfies [p], if there is one. *)
Lemma first_hit_exists l :
  Forall (λ x, p x = false) l
  ∨ ∃ n x, l !! n = Some x ∧ p x = true
           ∧ ∀ m y, (m < n)%nat → l !! m = Some y → p y = false.
Proof.
  induction l as [|z l IH].
  - left. constructor.
  - destruct (p z) eqn:Hz.
    + right. exists 0%nat, z. repeat split; try done. intros m y Hm. lia.
    + destruct IH as [IH | (n & x & Hn & Hx & Hlow)].
      * left. by constructor.
      * right. exists (S n), x. repeat split; try done.
        intros [|m] y Hm Hy; simpl in Hy.
        -- by injection Hy as <-.
        -- apply (Hlow m y); [lia | done].
Qed.

End ArrayFacts.

Lemma lastIndexOf_from_miss v k hit l :
  Forall (λ x, x ≠ v) l → Js.lastIndexOf_from v k hit l = hit.
Proof.
  intros H. revert k hit. induction H as [|x l Hx _ IH]; intros k hit; simpl.
  - reflexivity.
  - rewrite IH. destruct x, v; simpl; congruence.
Qed.

Lemma lastIndexOf_from_hit v k hit l n :
  l !! n = Some v →
  (∀ m, (n < m)%nat → l !! m ≠ Some v) →
  Js.lastIndexOf_from v k hit l = k + Z.of_nat n.
Proof.
  revert k hit n. induction l as [|z l IH]; intros k hit n Hn Hup.
  - discriminate.
  - destruct n as [|n]; simpl in *.
    + injection Hn as ->. rewrite lastIndexOf_from_miss.
      * destruct v; simpl; lia.
      * apply Forall_lookup. intros m y Hy ->.
        apply (Hup (S m)); [lia | done].
    + rewrite (IH (k + 1) _ n Hn).
      * lia.
      * intros m Hm. apply (Hup (S m)). lia.
Qed.

Lemma last_hit_exists (v : bool) l :
  Forall (λ x, x ≠ v) l
  ∨ ∃ n, l !! n = Some v ∧ ∀ m, (n < m)%nat → l !! m ≠ Some v.
Proof.
  induction l as [|z l IH].
  - left. constructor.
  - destruct IH as [IH | (n & Hn & Hup)].
    + destruct (decide (z = v)) as [-> | Hz].
      * right. exists 0%nat. split; [done |].
        intros [|m] Hm; [lia |]. simpl. intros Hy.
        rewrite Forall_lookup in IH. by apply (IH m v).
      * left. by constructor.
    + right. exists (S n). split; [done |].
      intros [|m] Hm; [lia |]. simpl. apply Hup. lia.
Qed.

(** ** The reorder guard *)

Lemma flag_lookup (l : list ChecklistItem) n v :
  (ChecklistItem.checked <$> l) !! n = Some v
  ↔ ∃ x, l !! n = Some x ∧ ChecklistItem.checked x = v.
Proof.
  rewrite list_lookup_fmap. destruct (l !! n) as [x|]; simpl.
  - split; [intros [= <-]; by exists x | intros (? & [= <-] & <-); done].
  - split; [done | intros (? & ? & _); done].
Qed.

Lemma first_checked_cases l :
  Forall (λ x, ChecklistItem.checked x = false) l ∨ ∃ n, first_checked l n.
Proof.
  destruct (first_hit_exists ChecklistItem.checked l)
    as [? | (n & x & ? & ? & ?)]; [by left | right].
  by exists n, x.
Qed.

Lemma last_unchecked_cases l :
  Forall (λ x, ChecklistItem.checked x = true) l ∨ ∃ n, last_unchecked l n.
Proof.
  destruct (last_hit_exists false (ChecklistItem.checked <$> l))
    as [Hall | (n & Hn & Hup)].
  - left. apply Forall_lookup. intros i x Hx.
    rewrite Forall_lookup in Hall.
    specialize (Hall i (ChecklistItem.checked x)).
    rewrite list_lookup_fmap, Hx in Hall.
    destruct (ChecklistItem.checked x) eqn:Hc; [done |].
    exfalso. apply Hall; [simpl; by rewrite Hc | done].
  - right. apply flag_lookup in Hn as (x & Hx & Hc).
    exists n, x. repeat split; try done.
    intros m y Hm Hy. destruct (ChecklistItem.checked y) eqn:Hcy; [done |].
    destruct (Hup m Hm). apply flag_lookup. by exists y.
Qed.

Lemma findIndex_first_checked l n :
  first_checked l n → Js.findIndex ChecklistItem.checked l = Z.of_nat n.
Proof.
  intros (x & Hn & Hx & Hlow). unfold Js.findIndex.
  by rewrite (findIndex_from_hit _ 0 l n x).
Qed.

Lemma lastIndexOf_last_unchecked l n :
  last_unchecked l n →
  Js.lastIndexOf (ChecklistItem.checked <$> l) false = Z.of_nat n.
Proof.
  intros (x & Hn & Hx & Hup). unfold Js.lastIndexOf.
  rewrite (lastIndexOf_from_hit _ 0 (-1) _ n); [done | |].
  - apply flag_lookup. by exists x.
  - intros m Hm (y & Hy & Hc)%flag_lookup.
    rewrite (Hup m y Hm Hy) in Hc. done.
Qed.

(** The three shapes of a submitted sequence, with the value of the guard
    in each. *)
Lemma guard_cases l :
  (Forall (λ x, ChecklistItem.checked x = false) l
     ∧ unchecked_after_checked l = false)
  ∨ (Forall (λ x, ChecklistItem.checked x = true) l
     ∧ unchecked_after_checked l = false)
  ∨ (∃ n m, first_checked l n ∧ last_unchecked l m
            ∧ unchecked_after_checked l = bool_decide (n < m)%nat).
Proof.
  unfold unchecked_after_checked.
  destruct (first_checked_cases l) as [Hnone | [n Hn]].
  { left. split; [done |]. unfold Js.findIndex.
    by rewrite (findIndex_from_miss _ _ _ Hnone). }
  destruct (last_unchecked_cases l) as [Hall | [m Hm]].
  { right; left. split; [done |]. unfold Js.lastIndexOf.
    rewrite lastIndexOf_from_miss; [by rewrite andb_false_r |].
    apply Forall_fmap. eapply Forall_impl; [exact Hall |].
    simpl. intros x ->. done. }
  right; right. exists n, m. repeat split; try done.
  rewrite (findIndex_first_checked l n Hn).
  rewrite (lastIndexOf_last_unchecked l m Hm).
  replace (Z.of_nat n =? -1) with false by (symmetry; apply Z.eqb_neq; lia).
  replace (Z.of_nat m =? -1) with false by (symmetry; apply Z.eqb_neq; lia).
  simpl. rewrite Z.gtb_ltb.
  destruct (Z.ltb_spec (Z.of_nat n) (Z.of_nat m)).
  - rewrite bool_decide_eq_true_2; [done | lia].
  - rewrite bool_decide_eq_false_2; [done | lia].
Qed.

(** The guard, in the words of the specification. *)
Lemma guard_true_iff_indices l :
  unchecked_after_checked l = true
  ↔ ∃ firstChecked lastUnchecked,
      first_checked l firstChecked ∧ last_unchecked l lastUnchecked
      ∧ (lastUnchecked > firstChecked)%nat.
Proof.
  destruct (guard_cases l)
    as [[Hnone ->] | [[Hall ->] | (n & m & Hn & Hm & ->)]].
  - split; [done |]. intros (f & _ & (x & Hf & Hx & _) & _ & _).
    rewrite Forall_lookup in Hnone. specialize (Hnone f x Hf). congruence.
  - split; [done |]. intros (_ & u & _ & (x & Hu & Hx & _) & _).
    rewrite Forall_lookup in Hall. specialize (Hall u x Hu). congruence.
  - rewrite bool_decide_eq_true. split.
    + intros Hlt. exists n, m. repeat split; (done || lia).
    + intros (f & u & (x & Hf & Hx & _) & (y & Hu & Hy & _) & Hlt).
      destruct Hn as (_ & _ & _ & Hlow). destruct Hm as (_ & _ & _ & Hup).
      assert (n ≤ f)%nat.
      { destruct (decide (n ≤ f)%nat); [done |].
        rewrite (Hlow f x) in Hx; [done | lia | done]. }
      assert (u ≤ m)%nat.
      { destruct (decide (u ≤ m)%nat); [done |].
        rewrite (Hup u y) in Hy; [done | lia | done]. }
      lia.
Qed.

Lemma guard_true_iff l :
  unchecked_after_checked l = true ↔ checked_before_unchecked l.
Proof.
  rewrite guard_true_iff_indices. split.
  - intros (f & u & (x & Hf & Hx & _) & (y & Hu & Hy & _) & Hlt).
    exists f, u, x, y. repeat split; (done || lia).
  - intros (i & j & a & b & Hij & Ha & Hca & Hb & Hcb).
    destruct (first_checked_cases l) as [Hnone | [n Hn]].
    { rewrite Forall_lookup in Hnone. specialize (Hnone i a Ha). congruence. }
    destruct (last_unchecked_cases l) as [Hall | [m Hm]].
    { rewrite Forall_lookup in Hall. specialize (Hall j b Hb). congruence. }
    exists n, m. repeat split; try done.
    destruct Hn as (_ & _ & _ & Hlow). destruct Hm as (_ & _ & _ & Hup).
    assert (n ≤ i)%nat.
    { destruct (decide (n ≤ i)%nat); [done |].
      rewrite (Hlow i a) in Hca; [done | lia | done]. }
    assert (j ≤ m)%nat.
    { destruct (decide (j ≤ m)%nat); [done |].
      rewrite (Hup j b) in Hcb; [done | lia | done]. }
    lia.
Qed.

Lemma all_true_replicate (fl : list bool) :
  Forall (λ b, b = true) fl → fl = replicate (length fl) true.
Proof.
  induction 1 as [|b fl -> _ IH]; simpl; [done |]. by rewrite <- IH.
Qed.

Lemma blocks_iff_no_inversion (fl : list bool) :
  (∃ u c, fl = replicate u false ++ replicate c true)
  ↔ ¬ ∃ i j, (i < j)%nat ∧ fl !! i = Some true ∧ fl !! j = Some false.
Proof.
  induction fl as [|b fl IH].
  - split.
    + intros _ (i & j & _ & Hi & _). done.
    + intros _. by exists 0%nat, 0%nat.
  - destruct b.
    + (* a checked head: everything behind it is checked *)
      split.
      * intros (u & c & Heq) (i & j & Hij & Hi & Hj).
        destruct u as [|u]; [| done].
        simpl in Heq. rewrite Heq in Hj.
        apply lookup_replicate in Hj as [? _]. done.
      * intros Hno. exists 0%nat, (S (length fl)). simpl. f_equal.
        apply all_true_replicate, Forall_lookup. intros j [] Hj; [done |].
        exfalso. apply Hno. exists 0%nat, (S j). repeat split; [lia | done..].
    + (* an unchecked head constrains nothing *)
      rewrite <- (not_iff_compat
        (A := ∃ i j, (i < j)%nat ∧ fl !! i = Some true ∧ fl !! j = Some false)).
      * rewrite <- IH. split.
        -- intros (u & c & Heq). destruct u as [|u].
           ++ destruct c; done.
           ++ exists u, c. simpl in Heq. by injection Heq.
        -- intros (u & c & ->). by exists (S u), c.
      * split.
        -- intros (i & j & Hij & Hi & Hj). exists (S i), (S j).
           repeat split; [lia | done..].
        -- intros (i & j & Hij & Hi & Hj).
           destruct i as [|i]; [done |]. destruct j as [|j]; [lia |].
           exists i, j. repeat split; [lia | done..].
Qed.

Lemma guard_false_iff l :
  unchecked_after_checked l = false ↔ unchecked_then_checked l.
Proof.
  rewrite <- not_true_iff_false, guard_true_iff.
  unfold unchecked_then_checked. rewrite blocks_iff_no_inversion.
  apply not_iff_compat. unfold checked_before_unchecked. split.
  - intros (i & j & a & b & Hij & Ha & Hca & Hb & Hcb). exists i, j.
    repeat split; [done | |]; apply flag_lookup; eauto.
  - intros (i & j & Hij & (a & Ha & Hca)%flag_lookup & (b & Hb & Hcb)%flag_lookup).
    by exists i, j, a, b.
Qed.

(** ** The reindexed checklist *)

Lemma reindexed_length l : length (reindexed l) = length l.
Proof. apply length_imap. Qed.

Lemma reindexed_lookup l i :
  reindexed l !! i
  = (λ item, ChecklistItem.with_order item (Z.of_nat i)) <$> l !! i.
Proof. unfold reindexed, Js.mapi. by rewrite list_lookup_imap. Qed.

Lemma reindexed_orders l :
  ChecklistItem.order <$> reindexed l = Z.of_nat <$> seq 0 (length l).
Proof.
  apply list_eq. intros i.
  rewrite !list_lookup_fmap, reindexed_lookup.
  destruct (l !! i) as [x|] eqn:Hx; simpl.
  - rewrite lookup_seq_lt by (by eapply lookup_lt_Some). done.
  - rewrite lookup_seq_ge by (by apply lookup_ge_None). done.
Qed.

Lemma reindexed_keeps {B} (f : ChecklistItem → B) l :
  (∀ item n, f (ChecklistItem.with_order item n) = f item) →
  f <$> reindexed l = f <$> l.
Proof.
  intros Hf. apply list_eq. intros i.
  rewrite !list_lookup_fmap, reindexed_lookup.
  destruct (l !! i); simpl; [by rewrite Hf | done].
Qed.

(** ** Running the handlers *)

Lemma run_sync_sent p w : sent (run_sync p w) = sent w ++ requests p.
Proof.
  revert w. induction p as [|n k IH|m k IH|req k _]; intros w; simpl.
  - by rewrite app_nil_r.
  - by rewrite IH.
  - by rewrite IH.
  - done.
Qed.

Lemma run_current net p w :
  current (run net p w) = default (current w) (last (updates net p)).
Proof.
  revert w. induction p as [|n k IH|m k IH|req k IH]; intros w; simpl.
  - done.
  - rewrite IH. destruct (updates net k) as [|t l]; simpl; [done |].
    destruct (last (t :: l)) eqn:E; [done |]. by apply last_None in E.
  - by rewrite IH.
  - by rewrite IH.
Qed.


(** ** Reordering *)

(** The two ways of [handleReorderChecklistItems]: it returns at once, or
    it shows the reindexed checklist and, with [syncDB], sends it. *)
Lemma reorder_returns note syncDB env noteId newItems :
  Note.checklistItems note = None ∨ unchecked_after_checked newItems = true →
  handleReorderChecklistItems note syncDB env noteId newItems = Return.
Proof.
  unfold handleReorderChecklistItems.
  intros [-> | ->]; [done |]. by destruct (Note.checklistItems note).
Qed.

Lemma reorder_proceeds note syncDB env noteId newItems items :
  Note.checklistItems note = Some items →
  unchecked_after_checked newItems = false →
  handleReorderChecklistItems note syncDB env noteId newItems
  = OnUpdate (Note.with_items note (reindexed newItems))
      (if syncDB then
         Fetch (PUT (Note.boardId note) noteId
                  (mk_body (reindexed newItems)
                     (if Js.every ChecklistItem.checked newItems
                      then value (iso_now env) else null)))
           (after_await note "Failed to reorder checklist item:")
       else Return).
Proof. unfold handleReorderChecklistItems. by intros -> ->. Qed.

Lemma reorder_rejected_iff note syncDB env noteId newItems net :
  rejected net (handleReorderChecklistItems note syncDB env noteId newItems)
  ↔ Note.checklistItems note = None ∨ unchecked_after_checked newItems = true.
Proof.
  split.
  - intros [Hup _].
    destruct (Note.checklistItems note) as [items|] eqn:Hitems; [| by left].
    destruct (unchecked_after_checked newItems) eqn:Hguard; [by right |].
    by rewrite (reorder_proceeds _ _ _ _ _ items) in Hup.
  - intros H. by rewrite reorder_returns.
Qed.

(** C9. The reorder guard, read as "a first checked index and a last
    unchecked index exist and the latter is the greater", holds exactly when
    some checked item stands in front of some unchecked item; and the guard
    lets a sequence through exactly when its flags are a (possibly empty)
    run of [false] followed by a (possibly empty) run of [true]. *)
Theorem guard_is_no_checked_before_unchecked (l : list ChecklistItem) :
  ((∃ firstChecked lastUnchecked,
      first_checked l firstChecked ∧ last_unchecked l lastUnchecked
      ∧ (lastUnchecked > firstChecked)%nat)
   ↔ checked_before_unchecked l)
  ∧ (unchecked_after_checked l = true ↔ checked_before_unchecked l)
  ∧ (unchecked_after_checked l = false ↔ unchecked_then_checked l).
Proof.
  split; [| split].
  - by rewrite <- guard_true_iff_indices, guard_true_iff.
  - apply guard_true_iff.
  - apply guard_false_iff.
Qed.

(** C2, as stated, fails: a note whose [checklistItems] is [undefined]
    makes [handleReorderChecklistItems] return at its first line, with no
    call of [onUpdate] and no request, although the submitted sequence has
    no checked item at all. *)
Lemma reorder_of_note_without_checklist_is_dropped :
  rejected network_down
    (handleReorderChecklistItems (Sample.note_of null None) true Sample.env
       "n1" [Sample.a])
  ∧ ¬ ∃ firstChecked lastUnchecked,
        first_checked [Sample.a] firstChecked
        ∧ last_unchecked [Sample.a] lastUnchecked
        ∧ (lastUnchecked > firstChecked)%nat.
Proof.
  split; [by split |].
  rewrite <- guard_true_iff_indices. by vm_compute.
Qed.

(** C2, amended. A reorder returns without calling [onUpdate] and without
    sending a request exactly when the note has no [checklistItems] array
    or, with firstChecked the index of the first checked item and
    lastUnchecked the index of the last unchecked item of the submitted
    sequence, both exist and lastUnchecked > firstChecked. A sequence
    flagged [false; true; false] is always turned down. *)
Theorem reorder_rejected_iff_guard_or_no_checklist
    note syncDB env noteId newItems net :
  (rejected net (handleReorderChecklistItems note syncDB env noteId newItems)
   ↔ Note.checklistItems note = None
     ∨ ∃ firstChecked lastUnchecked,
         first_checked newItems firstChecked
         ∧ last_unchecked newItems lastUnchecked
         ∧ (lastUnchecked > firstChecked)%nat)
  ∧ (∀ x y z,
       rejected net
         (handleReorderChecklistItems note syncDB env noteId
            [ChecklistItem.with_checked x false;
             ChecklistItem.with_checked y true;
             ChecklistItem.with_checked z false])).
Proof.
  split.
  - by rewrite reorder_rejected_iff, guard_true_iff_indices.
  - intros x y z. apply reorder_rejected_iff. by right.
Qed.

(** C3. A reorder that is not turned down shows the note with the
    submitted sequence reindexed, and sends that same array: the item at
    position [i] keeps its id, content and checked flag and gets
    [order = i], so the orders are [0, 1, ..., n-1] in submitted order. The
    checklist read off the optimistic note and the array read off the
    request body are both that list; the rest of the note is as it was. *)
Theorem reorder_orders_are_positions note syncDB env noteId newItems net :
  ¬ rejected net (handleReorderChecklistItems note syncDB env noteId newItems) →
  optimistic note (handleReorderChecklistItems note syncDB env noteId newItems)
  = Note.with_items note (reindexed newItems)
  ∧ (∀ req,
       req ∈ requests
               (handleReorderChecklistItems note syncDB env noteId newItems) →
       body_checklistItems (body req) = reindexed newItems)
  ∧ length (requests
              (handleReorderChecklistItems note true env noteId newItems))
    = 1%nat
  ∧ length (reindexed newItems) = length newItems
  ∧ (∀ i item,
       newItems !! i = Some item →
       reindexed newItems !! i
       = Some (ChecklistItem.mk (ChecklistItem.id item)
                 (ChecklistItem.content item) (ChecklistItem.checked item)
                 (Z.of_nat i)))
  ∧ ChecklistItem.order <$> reindexed newItems
    = Z.of_nat <$> seq 0 (length newItems)
  ∧ Note.checklistItems
      (optimistic note
         (handleReorderChecklistItems note syncDB env noteId newItems))
    = Some (reindexed newItems)
  ∧ (body_checklistItems ∘ body)
    <$> requests (handleReorderChecklistItems note true env noteId newItems)
    = [reindexed newItems]
  ∧ (∀ shown i item,
       Note.checklistItems
         (optimistic note
            (handleReorderChecklistItems note syncDB env noteId newItems))
       = Some shown →
       newItems !! i = Some item →
       ∃ shown_item,
         shown !! i = Some shown_item
         ∧ ChecklistItem.order shown_item = Z.of_nat i
         ∧ ChecklistItem.id shown_item = ChecklistItem.id item
         ∧ ChecklistItem.content shown_item = ChecklistItem.content item
         ∧ ChecklistItem.checked shown_item = ChecklistItem.checked item)
  ∧ Note.id
      (optimistic note
         (handleReorderChecklistItems note syncDB env noteId newItems))
    = Note.id note
  ∧ Note.archivedAt
      (optimistic note
         (handleReorderChecklistItems note syncDB env noteId newItems))
    = Note.archivedAt note.
Proof.
  intros Hacc. rewrite reorder_rejected_iff in Hacc.
  destruct (Note.checklistItems note) as [items|] eqn:Hitems;
    [| destruct Hacc; by left].
  destruct (unchecked_after_checked newItems) eqn:Hguard;
    [destruct Hacc; by right |].
  rewrite !(reorder_proceeds _ _ _ _ _ items Hitems Hguard).
  assert (Hopt : optimistic note
            (OnUpdate (Note.with_items note (reindexed newItems))
               (if syncDB
                then Fetch
                       (PUT (Note.boardId note) noteId
                          (mk_body (reindexed newItems)
                             (if Js.every ChecklistItem.checked newItems
                              then value (iso_now env) else null)))
                       (after_await note "Failed to reorder checklist item:")
                else Return))
          = Note.with_items note (reindexed newItems))
    by (by destruct syncDB).
  rewrite !Hopt.
  split; [done |]. split.
  { destruct syncDB; simpl; [| by intros req ?%elem_of_nil].
    by intros req ->%list_elem_of_singleton. }
  split; [done |]. split; [apply reindexed_length |]. split.
  { intros i item Hi. by rewrite reindexed_lookup, Hi. }
  split; [apply reindexed_orders |]. split; [done |]. split; [done |].
  split; [| done].
  intros shown i item [= <-] Hi. eexists. split.
  - by rewrite reindexed_lookup, Hi.
  - done.
Qed.

(** C3 on the sample note: [b] dragged above [a]. *)
Lemma reorder_orders_are_positions_witness :
  ¬ rejected network_down
      (handleReorderChecklistItems Sample.note true Sample.env "n1"
         [Sample.b; Sample.a])
  ∧ ChecklistItem.order <$> reindexed [Sample.b; Sample.a] = [0; 1]
  ∧ Note.checklistItems
      (optimistic Sample.note
         (handleReorderChecklistItems Sample.note true Sample.env "n1"
            [Sample.b; Sample.a]))
    = Some [ChecklistItem.mk "b" "y" false 0; ChecklistItem.mk "a" "x" false 1]
  ∧ (body_checklistItems ∘ body)
    <$> requests
          (handleReorderChecklistItems Sample.note true Sample.env "n1"
             [Sample.b; Sample.a])
    = [[ChecklistItem.mk "b" "y" false 0; ChecklistItem.mk "a" "x" false 1]].
Proof.
  assert (H : ¬ rejected network_down
      (handleReorderChecklistItems Sample.note true Sample.env "n1"
         [Sample.b; Sample.a])).
  { intros [H _]. vm_compute in H. discriminate H. }
  pose proof (reorder_orders_are_positions Sample.note true Sample.env "n1"
                [Sample.b; Sample.a] network_down H)
    as (_ & _ & _ & _ & _ & Horders & Hshown & Hsent & _).
  split; [exact H |]. split; [exact Horders |].
  split; [exact Hshown | exact Hsent].
Defined.

(** Toggle, edit and delete send the checklist alone. *)
Lemma toggle_request_body note syncDB itemId req :
  req ∈ requests (handleToggleChecklistItem note syncDB itemId) →
  body_archivedAt (body req) = undefined.
Proof.
  unfold handleToggleChecklistItem.
  destruct (Note.checklistItems note), syncDB; simpl;
    try (by intros ?%elem_of_nil).
  by intros ->%list_elem_of_singleton.
Qed.

Lemma edit_request_body note syncDB itemId content req :
  req ∈ requests (handleEditChecklistItem note syncDB itemId content) →
  body_archivedAt (body req) = undefined.
Proof.
  unfold handleEditChecklistItem.
  destruct (Note.checklistItems note), syncDB; simpl;
    try (by intros ?%elem_of_nil).
  by intros ->%list_elem_of_singleton.
Qed.

Lemma delete_request_body note syncDB itemId req :
  req ∈ requests (handleDeleteChecklistItem note syncDB itemId) →
  body_archivedAt (body req) = undefined.
Proof.
  unfold handleDeleteChecklistItem.
  destruct (Note.checklistItems note), syncDB; simpl;
    try (by intros ?%elem_of_nil).
  by intros ->%list_elem_of_singleton.
Qed.

Lemma add_request_body note syncDB env content req :
  req ∈ requests (handleAddChecklistItem note syncDB env content) →
  body_archivedAt (body req) = undefined.
Proof.
  unfold handleAddChecklistItem.
  destruct syncDB; simpl; [| by intros ?%elem_of_nil].
  by intros ->%list_elem_of_singleton.
Qed.

(** The item built by [handleAddChecklistItem] is unchecked, so the
    checklist it is appended to is never entirely checked. *)
Lemma every_with_unchecked_last (l : list ChecklistItem) x :
  ChecklistItem.checked x = false →
  Js.every ChecklistItem.checked (l ++ [x]) = false.
Proof.
  intros Hx. unfold Js.every. rewrite forallb_app. simpl. rewrite Hx.
  by rewrite andb_false_r.
Qed.

Lemma add_shape note syncDB env content :
  ∃ newItem,
    ChecklistItem.checked newItem = false
    ∧ ChecklistItem.content newItem = content
    ∧ ChecklistItem.order newItem
      = Z.of_nat (length (default [] (Note.checklistItems note)))
    ∧ handleAddChecklistItem note syncDB env content
      = OnUpdate
          (Note.with_items_archived note
             (default [] (Note.checklistItems note) ++ [newItem]) null)
          (if syncDB then
             Fetch (PUT (Note.boardId note) (Note.id note)
                      (mk_body
                         (default [] (Note.checklistItems note) ++ [newItem])
                         undefined))
               (after_await note "Error adding checklist item:")
           else Return).
Proof.
  eexists. repeat split; [.. | unfold handleAddChecklistItem].
  4: { rewrite every_with_unchecked_last by reflexivity. reflexivity. }
  all: reflexivity.
Qed.

(** C4. With [syncDB], a reorder that is not turned down sends one request
    whose body holds the reindexed array and an [archivedAt] member: the
    current timestamp when every item of the new sequence is checked,
    [null] otherwise. Read off the request: it is a PUT to the url of the
    note, its [checklistItems] is the reindexed array and its [archivedAt]
    is a timestamp exactly when all items are checked. The requests of
    toggle, edit, delete and add have no [archivedAt] member. *)
Theorem reorder_request_carries_archive_flag note env noteId newItems net :
  ¬ rejected net (handleReorderChecklistItems note true env noteId newItems) →
  requests (handleReorderChecklistItems note true env noteId newItems)
  = [PUT (Note.boardId note) noteId
       (mk_body (reindexed newItems)
          (if forallb ChecklistItem.checked newItems
           then value (iso_now env) else null))]
  ∧ (∀ syncDB itemId req,
       req ∈ requests (handleToggleChecklistItem note syncDB itemId) →
       body_archivedAt (body req) = undefined)
  ∧ (∀ syncDB itemId content req,
       req ∈ requests (handleEditChecklistItem note syncDB itemId content) →
       body_archivedAt (body req) = undefined)
  ∧ (∀ syncDB itemId req,
       req ∈ requests (handleDeleteChecklistItem note syncDB itemId) →
       body_archivedAt (body req) = undefined)
  ∧ (∀ syncDB content req,
       req ∈ requests (handleAddChecklistItem note syncDB env content) →
       body_archivedAt (body req) = undefined)
  ∧ (body_checklistItems ∘ body)
    <$> requests (handleReorderChecklistItems note true env noteId newItems)
    = [reindexed newItems]
  ∧ (body_archivedAt ∘ body)
    <$> requests (handleReorderChecklistItems note true env noteId newItems)
    = [if forallb ChecklistItem.checked newItems
       then value (iso_now env) else null]
  ∧ method
    <$> requests (handleReorderChecklistItems note true env noteId newItems)
    = ["PUT"]
  ∧ url
    <$> requests (handleReorderChecklistItems note true env noteId newItems)
    = ["/api/boards/" +:+ Note.boardId note +:+ "/notes/" +:+ noteId]
  ∧ (∀ req,
       req ∈ requests
               (handleReorderChecklistItems note true env noteId newItems) →
       (∃ timestamp, body_archivedAt (body req) = value timestamp)
       ↔ Forall (λ item, ChecklistItem.checked item = true) newItems)
  ∧ (∀ req,
       req ∈ requests
               (handleReorderChecklistItems note true env noteId newItems) →
       body_archivedAt (body req) = null
       ↔ ¬ Forall (λ item, ChecklistItem.checked item = true) newItems).
Proof.
  intros Hacc. rewrite reorder_rejected_iff in Hacc.
  destruct (Note.checklistItems note) as [items|] eqn:Hitems;
    [| destruct Hacc; by left].
  destruct (unchecked_after_checked newItems) eqn:Hguard;
    [destruct Hacc; by right |].
  rewrite !(reorder_proceeds _ _ _ _ _ items Hitems Hguard).
  assert (Hall : forallb ChecklistItem.checked newItems = true
                 ↔ Forall (λ item, ChecklistItem.checked item = true) newItems).
  { rewrite forallb_forall, Forall_forall.
    split; intros H x Hx; apply H; by apply list_elem_of_In. }
  split; [done |]. split; [intros; by eapply toggle_request_body |].
  split; [intros; by eapply edit_request_body |].
  split; [intros; by eapply delete_request_body |].
  split; [intros; by eapply add_request_body |].
  split; [done |]. split; [done |]. split; [done |]. split; [done |].
  simpl. unfold Js.every. split.
  - intros req ->%list_elem_of_singleton. simpl. rewrite <- Hall.
    destruct (forallb ChecklistItem.checked newItems); split; try done.
    + by eexists.
    + by intros [? ?].
  - intros req ->%list_elem_of_singleton. simpl. rewrite <- Hall.
    by destruct (forallb ChecklistItem.checked newItems).
Qed.

(** C4 on the sample note with both items checked. *)
Lemma reorder_request_carries_archive_flag_witness :
  ¬ rejected network_down
      (handleReorderChecklistItems Sample.note true Sample.env "n1"
         [Sample.b_done; Sample.a_done])
  ∧ (body_archivedAt ∘ body)
    <$> requests
          (handleReorderChecklistItems Sample.note true Sample.env "n1"
             [Sample.b_done; Sample.a_done])
    = [value "2024-01-02T00:00:00.000Z"]
  ∧ (body_checklistItems ∘ body)
    <$> requests
          (handleReorderChecklistItems Sample.note true Sample.env "n1"
             [Sample.b_done; Sample.a_done])
    = [[ChecklistItem.mk "b" "y" true 0; ChecklistItem.mk "a" "x" true 1]]
  ∧ url
    <$> requests
          (handleReorderChecklistItems Sample.note true Sample.env "n1"
             [Sample.b_done; Sample.a_done])
    = ["/api/boards/b1/notes/n1"].
Proof.
  assert (H : ¬ rejected network_down
      (handleReorderChecklistItems Sample.note true Sample.env "n1"
         [Sample.b_done; Sample.a_done])).
  { intros [H _]. vm_compute in H. discriminate H. }
  pose proof (reorder_request_carries_archive_flag Sample.note Sample.env
                "n1" [Sample.b_done; Sample.a_done] network_down H)
    as (_ & _ & _ & _ & _ & Hitems & Hflag & _ & Hurl & _).
  split; [exact H |]. split; [exact Hflag |].
  split; [exact Hitems | exact Hurl].
Defined.

(** C5, as stated, fails for reorder: the optimistic note keeps the
    [archivedAt] it had. An unarchived note whose only item is checked stays
    unarchived on screen after a reorder, and an archived note with an empty
    checklist stays archived. *)
Lemma reorder_keeps_stale_archive_flag :
  archive_rule
    (optimistic (Sample.note_of null (Some [Sample.a_done]))
       (handleReorderChecklistItems
          (Sample.note_of null (Some [Sample.a_done])) true Sample.env
          "n1" [Sample.a_done]))
  = false
  ∧ archive_rule
      (optimistic
         (Sample.note_of (value "2023-12-31T00:00:00.000Z") (Some []))
         (handleReorderChecklistItems
            (Sample.note_of (value "2023-12-31T00:00:00.000Z") (Some []))
            true Sample.env "n1" []))
    = false.
Proof. split; reflexivity. Qed.

(** C5, amended. After add, the optimistic note obeys the auto-archive
    rule: its [archivedAt] is [null] and its checklist holds the new,
    unchecked item at its end (in particular when the checklist was empty).
    Reorder does not recompute [archivedAt] in the optimistic note: it is
    the one the note had before the call, next to the reindexed checklist;
    the recomputed flag is in the request only, a timestamp when every
    submitted item is checked and [null] otherwise. *)
Theorem archive_flag_of_optimistic_state note syncDB env :
  (∀ content,
     archive_rule
       (optimistic note (handleAddChecklistItem note syncDB env content))
     = true
     ∧ Note.archivedAt
         (optimistic note (handleAddChecklistItem note syncDB env content))
       = null)
  ∧ (∀ noteId newItems,
       Note.archivedAt
         (optimistic note
            (handleReorderChecklistItems note syncDB env noteId newItems))
       = Note.archivedAt note)
  ∧ (∀ content,
       ∃ newItem,
         Note.checklistItems
           (optimistic note (handleAddChecklistItem note syncDB env content))
         = Some (default [] (Note.checklistItems note) ++ [newItem])
         ∧ ChecklistItem.checked newItem = false
         ∧ ChecklistItem.content newItem = content)
  ∧ (∀ noteId newItems,
       Note.checklistItems
         (optimistic note
            (handleReorderChecklistItems note syncDB env noteId newItems))
       = match Note.checklistItems note with
         | Some items =>
           if unchecked_after_checked newItems then Some items
           else Some (reindexed newItems)
         | None => None
         end)
  ∧ (∀ noteId newItems,
       (body_archivedAt ∘ body)
       <$> requests (handleReorderChecklistItems note true env noteId newItems)
       = match Note.checklistItems note with
         | Some _ =>
           if unchecked_after_checked newItems then []
           else [if forallb ChecklistItem.checked newItems
                 then value (iso_now env) else null]
         | None => []
         end).
Proof.
  assert (Hadd : ∀ content, ∃ newItem,
            ChecklistItem.checked newItem = false
            ∧ ChecklistItem.content newItem = content
            ∧ optimistic note (handleAddChecklistItem note syncDB env content)
              = Note.with_items_archived note
                  (default [] (Note.checklistItems note) ++ [newItem]) null).
  { intros content.
    destruct (add_shape note syncDB env content)
      as (newItem & Hc & Hcontent & _ & ->).
    exists newItem. repeat split; try done. by destruct syncDB. }
  split; [| split; [| split; [| split]]].
  - intros content. destruct (Hadd content) as (newItem & Hc & _ & ->).
    split; [| done].
    unfold archive_rule. simpl.
    pose proof (every_with_unchecked_last
                  (default [] (Note.checklistItems note)) newItem Hc) as Hev.
    unfold Js.every in Hev.
    destruct (default [] (Note.checklistItems note) ++ [newItem]) eqn:E.
    + by destruct (default [] (Note.checklistItems note)).
    + simpl in Hev |- *. by rewrite Hev.
  - intros noteId newItems. unfold handleReorderChecklistItems.
    destruct (Note.checklistItems note); [| done].
    destruct (unchecked_after_checked newItems); [done |].
    by destruct syncDB.
  - intros content.
    destruct (Hadd content) as (newItem & Hc & Hcontent & ->).
    by exists newItem.
  - intros noteId newItems. unfold handleReorderChecklistItems.
    destruct (Note.checklistItems note) eqn:Hitems; [| done].
    destruct (unchecked_after_checked newItems); [done |].
    by destruct syncDB.
  - intros noteId newItems. unfold handleReorderChecklistItems.
    destruct (Note.checklistItems note); [| done].
    by destruct (unchecked_after_checked newItems).
Qed.

(** C10. The optimistic note of add has [archivedAt = null]: the appended
    item is unchecked, so the all-checked test is false. An archived note
    is shown unarchived as soon as an item is added. *)
Theorem add_clears_archive_flag note syncDB env content :
  Note.archivedAt
    (optimistic note (handleAddChecklistItem note syncDB env content))
  = null
  ∧ (∃ newItem,
       Note.checklistItems
         (optimistic note (handleAddChecklistItem note syncDB env content))
       = Some (default [] (Note.checklistItems note) ++ [newItem])
       ∧ ChecklistItem.checked newItem = false
       ∧ ChecklistItem.content newItem = content
       ∧ Js.every ChecklistItem.checked
           (default [] (Note.checklistItems note) ++ [newItem])
         = false)
  ∧ Note.archivedAt
      (optimistic
         (Sample.note_of (value "2023-12-31T00:00:00.000Z")
            (Some [Sample.a_done]))
         (handleAddChecklistItem
            (Sample.note_of (value "2023-12-31T00:00:00.000Z")
               (Some [Sample.a_done]))
            syncDB env content))
    = null.
Proof.
  assert (Hnull : ∀ n, Note.archivedAt
            (optimistic n (handleAddChecklistItem n syncDB env content))
          = null).
  { intros n. destruct (add_shape n syncDB env content)
      as (newItem & _ & _ & _ & ->). by destruct syncDB. }
  split; [apply Hnull | split; [| apply Hnull]].
  destruct (add_shape note syncDB env content)
    as (newItem & Hc & Hcontent & _ & ->).
  exists newItem. repeat split; try done.
  - by destruct syncDB.
  - by apply every_with_unchecked_last.
Qed.

(** C7. The request of add holds the checklist with the new item appended
    and no [archivedAt] member, while the optimistic note of the same call
    has its [archivedAt] written. *)
Theorem add_request_has_no_archive_flag note syncDB env content :
  (∀ req,
     req ∈ requests (handleAddChecklistItem note syncDB env content) →
     body_archivedAt (body req) = undefined)
  ∧ (∃ newItem,
       requests (handleAddChecklistItem note true env content)
       = [PUT (Note.boardId note) (Note.id note)
            (mk_body (default [] (Note.checklistItems note) ++ [newItem])
               undefined)]
       ∧ ChecklistItem.content newItem = content)
  ∧ Note.archivedAt
      (optimistic note (handleAddChecklistItem note syncDB env content))
    ≠ undefined.
Proof.
  split; [| split].
  - intros req. apply add_request_body.
  - destruct (add_shape note true env content)
      as (newItem & _ & Hcontent & _ & ->). by exists newItem.
  - destruct (add_shape note syncDB env content)
      as (newItem & _ & _ & _ & ->). by destruct syncDB.
Qed.

(** ** Rollback *)

(** A response that is not ok puts the snapshot back, whatever handler
    was waiting for it. *)
Lemma toggle_rolls_back_on_rejection note b itemId :
  settled (server_rejects b) note (handleToggleChecklistItem note true itemId)
  = note.
Proof.
  unfold settled, handleToggleChecklistItem.
  by destruct (Note.checklistItems note).
Qed.

Lemma edit_rolls_back_on_rejection note b itemId content :
  settled (server_rejects b) note
    (handleEditChecklistItem note true itemId content)
  = note.
Proof.
  unfold settled, handleEditChecklistItem.
  by destruct (Note.checklistItems note).
Qed.

Lemma delete_rolls_back_on_rejection note b itemId :
  settled (server_rejects b) note (handleDeleteChecklistItem note true itemId)
  = note.
Proof.
  unfold settled, handleDeleteChecklistItem.
  by destruct (Note.checklistItems note).
Qed.

Lemma reorder_rolls_back_on_rejection note b env noteId newItems :
  settled (server_rejects b) note
    (handleReorderChecklistItems note true env noteId newItems)
  = note.
Proof.
  unfold settled, handleReorderChecklistItems.
  destruct (Note.checklistItems note); [| done].
  by destruct (unchecked_after_checked newItems).
Qed.

(** C6. When the request of toggle, edit, delete or reorder is answered by
    a response that is not ok, the note on screen at the end is the note the
    handler was called on. In the scenario of the specification, toggling
    [a] shows [a] checked while the request is in flight, and a 500 puts
    the unchecked [a] back. *)
Theorem server_rejection_restores_snapshot :
  (∀ note b itemId,
     settled (server_rejects b) note
       (handleToggleChecklistItem note true itemId) = note)
  ∧ (∀ note b itemId content,
       settled (server_rejects b) note
         (handleEditChecklistItem note true itemId content) = note)
  ∧ (∀ note b itemId,
       settled (server_rejects b) note
         (handleDeleteChecklistItem note true itemId) = note)
  ∧ (∀ note b env noteId newItems,
       settled (server_rejects b) note
         (handleReorderChecklistItems note true env noteId newItems) = note)
  ∧ Note.checklistItems
      (optimistic Sample.note (handleToggleChecklistItem Sample.note true "a"))
    = Some [Sample.a_done; Sample.b]
  ∧ settled (server_rejects None) Sample.note
      (handleToggleChecklistItem Sample.note true "a")
    = Sample.note
  ∧ Note.checklistItems Sample.note = Some [Sample.a; Sample.b].
Proof.
  repeat split.
  - apply toggle_rolls_back_on_rejection.
  - apply edit_rolls_back_on_rejection.
  - apply delete_rolls_back_on_rejection.
  - apply reorder_rolls_back_on_rejection.
Qed.

(** The [catch] of the awaited handlers logs and leaves the optimistic
    note on screen. *)
Lemma thrown_fetch_keeps_optimistic_note note env :
  (∀ itemId,
     settled network_down note (handleDeleteChecklistItem note true itemId)
     = optimistic note (handleDeleteChecklistItem note true itemId))
  ∧ (∀ itemId content,
       settled network_down note
         (handleEditChecklistItem note true itemId content)
       = optimistic note (handleEditChecklistItem note true itemId content))
  ∧ (∀ noteId newItems,
       settled network_down note
         (handleReorderChecklistItems note true env noteId newItems)
       = optimistic note
           (handleReorderChecklistItems note true env noteId newItems))
  ∧ (∀ content,
       settled network_down note (handleAddChecklistItem note true env content)
       = optimistic note (handleAddChecklistItem note true env content)).
Proof.
  repeat split.
  - intros itemId. unfold handleDeleteChecklistItem.
    by destruct (Note.checklistItems note).
  - intros itemId content. unfold handleEditChecklistItem.
    by destruct (Note.checklistItems note).
  - intros noteId newItems. unfold handleReorderChecklistItems.
    destruct (Note.checklistItems note); [| done].
    by destruct (unchecked_after_checked newItems).
Qed.

(** C1. When [fetch] itself fails, only toggle (whose promise chain has a
    [.catch] that calls [onUpdate(note)]) puts the snapshot back. Delete,
    edit, reorder and add await the request inside a [try] whose [catch]
    only logs: the optimistic note stays on screen. *)
Theorem thrown_fetch_is_rolled_back_by_toggle_only :
  settled network_down Sample.note
    (handleToggleChecklistItem Sample.note true "a")
  = Sample.note
  ∧ settled network_down Sample.note
      (handleDeleteChecklistItem Sample.note true "a")
    = Note.with_items Sample.note [Sample.b]
  ∧ settled network_down Sample.note
      (handleEditChecklistItem Sample.note true "a" "new")
    = Note.with_items Sample.note
        [ChecklistItem.mk "a" "new" false 0; Sample.b]
  ∧ settled network_down Sample.note
      (handleReorderChecklistItems Sample.note true Sample.env "n1"
         [Sample.b; Sample.a])
    = Note.with_items Sample.note
        [ChecklistItem.mk "b" "y" false 0; ChecklistItem.mk "a" "x" false 1]
  ∧ settled network_down Sample.note
      (handleAddChecklistItem Sample.note true Sample.env "z")
    = Note.with_items_archived Sample.note
        [Sample.a; Sample.b;
         ChecklistItem.mk "item_1704067200000_k3j9x0q1z" "z" false 2]
        null
  ∧ settled network_down Sample.note
      (handleDeleteChecklistItem Sample.note true "a")
    ≠ Sample.note.
Proof. repeat split. discriminate. Qed.

(** ** The blank draft *)

Lemma blank_trimStart s : Js.blank s = true → Js.trimStart s = "".
Proof.
  induction s as [|c s IH]; simpl; [done |].
  intros [-> Hs]%andb_true_iff. by apply IH.
Qed.

(** A draft of white space only trims to the empty string. *)
Lemma blank_trim s : Js.blank s = true → Js.trim s = "".
Proof. intros Hs. unfold Js.trim. by rewrite (blank_trimStart s Hs). Qed.

Lemma editing_row_props note currentUser readonly ui item :
  Board.editingItem ui = Some (ChecklistItem.id item) →
  ItemRow.isEditing (Board.item_row note currentUser readonly ui item) = true
  ∧ ItemRow.editContent (Board.item_row note currentUser readonly ui item)
    = Some (Board.editingItemContent ui).
Proof.
  intros Hed. unfold Board.item_row, Board.is_editing. simpl.
  by rewrite Hed, String.eqb_refl.
Qed.

(** C8. In the row of an item that is being edited with a draft that trims
    to the empty string, Backspace calls [handleDeleteChecklistItem] once,
    for that item, and [handleEditChecklistItem] not at all; the editing
    session is closed, so that a blur of the row rendered afterwards commits
    nothing either. *)
Theorem backspace_on_blank_draft_deletes
    note currentUser readonly ui item shift deletingRef :
  Board.editingItem ui = Some (ChecklistItem.id item) →
  Js.trim (Board.editingItemContent ui) = "" →
  fst (ItemRow.handleKeyDown (Board.item_row note currentUser readonly ui item)
         (ItemRow.mk_key "Backspace" shift) deletingRef)
  = [ItemRow.PreventDefault;
     ItemRow.Call (Board.Delete (ChecklistItem.id item));
     ItemRow.Call (Board.SetEditingItem None);
     ItemRow.Call (Board.SetEditingItemContent "")]
  ∧ Board.deletes
      (fst (ItemRow.handleKeyDown (Board.item_row note currentUser readonly ui item)
              (ItemRow.mk_key "Backspace" shift) deletingRef))
    = [ChecklistItem.id item]
  ∧ Board.edits
      (fst (ItemRow.handleKeyDown (Board.item_row note currentUser readonly ui item)
              (ItemRow.mk_key "Backspace" shift) deletingRef))
    = []
  ∧ Board.edits
      (fst (ItemRow.handleBlur
              (Board.item_row note currentUser readonly
                 (Board.after ui
                    (fst (ItemRow.handleKeyDown
                            (Board.item_row note currentUser readonly ui item)
                            (ItemRow.mk_key "Backspace" shift) deletingRef)))
                 item)
              false))
    = [].
Proof.
  intros Hed Hblank.
  assert (Heffs :
    fst (ItemRow.handleKeyDown (Board.item_row note currentUser readonly ui item)
           (ItemRow.mk_key "Backspace" shift) deletingRef)
    = [ItemRow.PreventDefault;
       ItemRow.Call (Board.Delete (ChecklistItem.id item));
       ItemRow.Call (Board.SetEditingItem None);
       ItemRow.Call (Board.SetEditingItemContent "")]).
  { unfold ItemRow.handleKeyDown.
    destruct (editing_row_props note currentUser readonly ui item Hed)
      as [_ ->].
    rewrite Hblank. reflexivity. }
  rewrite Heffs. repeat split.
Qed.

(** C8 on the sample note: [a] edited down to two spaces. *)
Lemma backspace_on_blank_draft_deletes_witness :
  (Board.editingItem (Sample.editing_a "  ") = Some (ChecklistItem.id Sample.a)
   ∧ Js.trim (Board.editingItemContent (Sample.editing_a "  ")) = "")
  ∧ Board.deletes
      (fst (ItemRow.handleKeyDown
              (Board.item_row Sample.note (Some Sample.ada) false
                 (Sample.editing_a "  ") Sample.a)
              (ItemRow.mk_key "Backspace" false) false))
    = ["a"].
Proof.
  split; [split; reflexivity |].
  exact (proj1 (proj2
    (backspace_on_blank_draft_deletes Sample.note (Some Sample.ada) false
       (Sample.editing_a "  ") Sample.a false false
       eq_refl eq_refl))).
Defined.

(** * Further properties of the components *)

(** ** The stable sort of toggle *)

Section SortFacts.

Context {A : Type} (key : A → Z).

Lemma sort_insert_perm x l : Js.sort_insert key x l ≡ₚ x :: l.
Proof.
  induction l as [|y l IH]; simpl; [done |].
  destruct (key x <=? key y); [done |].
  rewrite IH. apply Permutation_swap.
Qed.

Lemma sort_by_perm l : Js.sort_by key l ≡ₚ l.
Proof.
  induction l as [|x l IH]; simpl; [done |].
  by rewrite sort_insert_perm, IH.
Qed.

Lemma sort_insert_sorted x l :
  Sorted Z.le (key <$> l) → Sorted Z.le (key <$> Js.sort_insert key x l).
Proof.
  induction l as [|y l IH]; simpl; intros Hl.
  - by repeat constructor.
  - destruct (Z.leb_spec (key x) (key y)); simpl.
    + constructor; [done |]. by constructor.
    + apply Sorted_inv in Hl as [Hl Hhd]. constructor; [by apply IH |].
      destruct l as [|z l]; simpl.
      * constructor. lia.
      * destruct (Z.leb_spec (key x) (key z)); simpl; constructor; [lia |].
        by apply HdRel_inv in Hhd.
Qed.

Lemma sort_by_sorted l : Sorted Z.le (key <$> Js.sort_by key l).
Proof.
  induction l as [|x l IH]; simpl; [constructor |].
  by apply sort_insert_sorted.
Qed.

(** On a list that is in order already the sort moves nothing: equal keys
    keep their places. *)
Lemma sort_by_fixed l : Sorted Z.le (key <$> l) → Js.sort_by key l = l.
Proof.
  induction l as [|x l IH]; simpl; [done |].
  intros [Hl Hhd]%Sorted_inv. rewrite (IH Hl).
  destruct l as [|y l]; simpl; [done |].
  apply HdRel_inv in Hhd. by rewrite (proj2 (Z.leb_le _ _) Hhd).
Qed.

Lemma sort_insert_fmap (f : A → A) x l :
  (∀ y, key (f y) = key y) →
  Js.sort_insert key (f x) (f <$> l) = f <$> Js.sort_insert key x l.
Proof.
  intros Hf. induction l as [|y l IH]; simpl; [done |].
  rewrite !Hf. destruct (key x <=? key y); simpl; [done |].
  f_equal. apply IH.
Qed.

Lemma sort_by_fmap (f : A → A) l :
  (∀ y, key (f y) = key y) →
  Js.sort_by key (f <$> l) = f <$> Js.sort_by key l.
Proof.
  intros Hf. unfold Js.sort_by. induction l as [|x l IH]; simpl; [done |].
  etrans; [| by apply sort_insert_fmap]. f_equal. apply IH.
Qed.

End SortFacts.

(** ** The checklists the handlers build *)

Lemma with_items_same note items :
  Note.checklistItems note = Some items → Note.with_items note items = note.
Proof. destruct note. simpl. by intros ->. Qed.

Lemma with_items_twice note l1 l2 :
  Note.with_items (Note.with_items note l1) l2 = Note.with_items note l2.
Proof. done. Qed.

Lemma toggled_orders itemId items :
  ChecklistItem.order <$> toggled itemId items = ChecklistItem.order <$> items.
Proof.
  unfold toggled. rewrite <- list_fmap_compose. apply list_fmap_ext.
  intros _ x _. simpl. by destruct (String.eqb _ _).
Qed.

Lemma toggled_twice itemId items : toggled itemId (toggled itemId items) = items.
Proof.
  unfold toggled. rewrite <- list_fmap_compose.
  rewrite <- (list_fmap_id items) at 2. apply list_fmap_ext.
  intros _ [i c b o] _. simpl.
  destruct (String.eqb i itemId) eqn:E; simpl; rewrite E; [| done].
  unfold ChecklistItem.with_checked. simpl. by rewrite negb_involutive.
Qed.

Lemma toggled_lookup itemId items i :
  toggled itemId items !! i
  = (λ item, if String.eqb (ChecklistItem.id item) itemId
             then ChecklistItem.mk (ChecklistItem.id item)
                    (ChecklistItem.content item)
                    (negb (ChecklistItem.checked item))
                    (ChecklistItem.order item)
             else item) <$> items !! i.
Proof. unfold toggled. by rewrite list_lookup_fmap. Qed.

Lemma toggled_sorted_commute itemId items :
  Js.sort_by ChecklistItem.order (toggled itemId items)
  = toggled itemId (Js.sort_by ChecklistItem.order items).
Proof.
  unfold toggled. apply sort_by_fmap. intros y. by destruct (String.eqb _ _).
Qed.

Lemma absent_spec itemId items x :
  absent itemId items → x ∈ items →
  String.eqb (ChecklistItem.id x) itemId = false.
Proof.
  intros Habs Hx. rewrite String.eqb_neq.
  unfold absent in Habs. rewrite Forall_forall in Habs. by apply Habs.
Qed.

Lemma toggled_absent itemId items : absent itemId items → toggled itemId items = items.
Proof.
  intros Habs. unfold toggled. rewrite <- (list_fmap_id items) at 2.
  apply list_fmap_ext. intros i x Hx. simpl.
  by rewrite (absent_spec itemId items x Habs) by (by eapply list_elem_of_lookup_2).
Qed.

Lemma edited_absent itemId content items :
  absent itemId items → edited itemId content items = items.
Proof.
  intros Habs. unfold edited. rewrite <- (list_fmap_id items) at 2.
  apply list_fmap_ext. intros i x Hx. simpl.
  by rewrite (absent_spec itemId items x Habs) by (by eapply list_elem_of_lookup_2).
Qed.

Lemma without_absent itemId items : absent itemId items → without itemId items = items.
Proof.
  unfold without. induction 1 as [|x l Hx _ IH]; simpl; [done |].
  apply String.eqb_neq in Hx. rewrite Hx. simpl. by rewrite IH.
Qed.

Lemma without_is_absent itemId items : absent itemId (without itemId items).
Proof.
  unfold absent, without. apply Forall_forall. intros x Hx.
  apply list_elem_of_In, List.filter_In in Hx as [_ Hx].
  by apply negb_true_iff, String.eqb_neq in Hx.
Qed.

Lemma without_elem itemId items x :
  x ∈ without itemId items ↔ x ∈ items ∧ ChecklistItem.id x ≠ itemId.
Proof.
  unfold without. rewrite !list_elem_of_In, List.filter_In.
  by rewrite negb_true_iff, String.eqb_neq.
Qed.

Lemma without_sublist itemId items : sublist (without itemId items) items.
Proof.
  unfold without. induction items as [|x l IH]; simpl; [done |].
  destruct (negb _); by constructor.
Qed.

(** ** Toggle *)

(** X1. On a checklist that stands in ascending order, toggle changes
    nothing but the flag: every item keeps its place, the items with the
    given id get the opposite [checked], and this list is what is shown and
    what is sent. *)
Theorem toggle_flips_in_place note syncDB itemId items :
  Note.checklistItems note = Some items →
  ascending items →
  optimistic note (handleToggleChecklistItem note syncDB itemId)
  = Note.with_items note (toggled itemId items)
  ∧ requests (handleToggleChecklistItem note true itemId)
    = [PUT (Note.boardId note) (Note.id note)
         (mk_body (toggled itemId items) undefined)]
  ∧ length (toggled itemId items) = length items
  ∧ (∀ i, toggled itemId items !! i
          = (λ item, if String.eqb (ChecklistItem.id item) itemId
                     then ChecklistItem.mk (ChecklistItem.id item)
                            (ChecklistItem.content item)
                            (negb (ChecklistItem.checked item))
                            (ChecklistItem.order item)
                     else item) <$> items !! i)
  ∧ Note.checklistItems
      (optimistic note (handleToggleChecklistItem note syncDB itemId))
    = Some (toggled itemId items)
  ∧ (body_checklistItems ∘ body)
    <$> requests (handleToggleChecklistItem note true itemId)
    = [toggled itemId items].
Proof.
  intros Hitems Hasc.
  assert (Hsort : Js.sort_by ChecklistItem.order (toggled itemId items)
                  = toggled itemId items).
  { apply sort_by_fixed. by rewrite toggled_orders. }
  unfold handleToggleChecklistItem. rewrite Hitems.
  fold (toggled itemId items). rewrite Hsort.
  split; [by destruct syncDB |]. split; [done |].
  split; [unfold toggled; apply length_fmap |].
  split; [intros i; apply toggled_lookup |].
  split; [by destruct syncDB | done].
Qed.

Lemma toggle_flips_in_place_witness :
  (Note.checklistItems Sample.note = Some [Sample.a; Sample.b]
   ∧ ascending [Sample.a; Sample.b])
  ∧ optimistic Sample.note (handleToggleChecklistItem Sample.note true "b")
    = Note.with_items Sample.note (toggled "b" [Sample.a; Sample.b]).
Proof.
  assert (Hasc : ascending [Sample.a; Sample.b]).
  { unfold ascending. simpl. repeat constructor. lia. }
  split; [split; [reflexivity | exact Hasc] |].
  exact (proj1 (toggle_flips_in_place Sample.note true "b"
                  [Sample.a; Sample.b] eq_refl Hasc)).
Defined.

(** X2. Whatever the order of the checklist, what toggle shows and sends
    is a rearrangement of the flipped items that stands in ascending
    [order]; it is the stable sort of the checklist with the flags flipped.
    A checklist that was out of order is put in order by a toggle. *)
Theorem toggle_shows_items_in_order note syncDB itemId items :
  Note.checklistItems note = Some items →
  ∃ shown,
    optimistic note (handleToggleChecklistItem note syncDB itemId)
    = Note.with_items note shown
    ∧ shown ≡ₚ toggled itemId items
    ∧ ascending shown
    ∧ shown = toggled itemId (Js.sort_by ChecklistItem.order items)
    ∧ requests (handleToggleChecklistItem note true itemId)
      = [PUT (Note.boardId note) (Note.id note) (mk_body shown undefined)]
    ∧ Note.checklistItems
        (optimistic note (handleToggleChecklistItem note syncDB itemId))
      = Some shown
    ∧ (body_checklistItems ∘ body)
      <$> requests (handleToggleChecklistItem note true itemId)
      = [shown].
Proof.
  intros Hitems.
  exists (Js.sort_by ChecklistItem.order (toggled itemId items)).
  unfold handleToggleChecklistItem. rewrite Hitems.
  fold (toggled itemId items).
  split; [by destruct syncDB |]. split; [apply sort_by_perm |].
  split; [apply sort_by_sorted |].
  split; [apply toggled_sorted_commute |]. split; [done |].
  split; [by destruct syncDB | done].
Qed.

Lemma toggle_shows_items_in_order_witness :
  Note.checklistItems (Sample.note_of null (Some [Sample.b; Sample.a]))
  = Some [Sample.b; Sample.a]
  ∧ ∃ shown,
      optimistic (Sample.note_of null (Some [Sample.b; Sample.a]))
        (handleToggleChecklistItem
           (Sample.note_of null (Some [Sample.b; Sample.a])) true "a")
      = Note.with_items (Sample.note_of null (Some [Sample.b; Sample.a])) shown
      ∧ shown ≡ₚ toggled "a" [Sample.b; Sample.a]
      ∧ ascending shown
      ∧ shown = toggled "a" (Js.sort_by ChecklistItem.order [Sample.b; Sample.a])
      ∧ requests
          (handleToggleChecklistItem
             (Sample.note_of null (Some [Sample.b; Sample.a])) true "a")
        = [PUT "b1" "n1" (mk_body shown undefined)]
      ∧ Note.checklistItems
          (optimistic (Sample.note_of null (Some [Sample.b; Sample.a]))
             (handleToggleChecklistItem
                (Sample.note_of null (Some [Sample.b; Sample.a])) true "a"))
        = Some shown
      ∧ (body_checklistItems ∘ body)
        <$> requests
              (handleToggleChecklistItem
                 (Sample.note_of null (Some [Sample.b; Sample.a])) true "a")
        = [shown].
Proof.
  split; [reflexivity |].
  exact (toggle_shows_items_in_order
           (Sample.note_of null (Some [Sample.b; Sample.a])) true "a"
           [Sample.b; Sample.a] eq_refl).
Defined.

(** X3. Toggling the same item twice on a checklist in ascending order
    shows the note one started from. *)
Theorem toggle_twice_restores_note note syncDB itemId items :
  Note.checklistItems note = Some items →
  ascending items →
  optimistic
    (optimistic note (handleToggleChecklistItem note syncDB itemId))
    (handleToggleChecklistItem
       (optimistic note (handleToggleChecklistItem note syncDB itemId))
       syncDB itemId)
  = note.
Proof.
  intros Hitems Hasc.
  assert (Hsort : ∀ l, ChecklistItem.order <$> l = ChecklistItem.order <$> items →
            Js.sort_by ChecklistItem.order l = l).
  { intros l Hl. apply sort_by_fixed. by rewrite Hl. }
  assert (H1 : optimistic note (handleToggleChecklistItem note syncDB itemId)
               = Note.with_items note (toggled itemId items)).
  { unfold handleToggleChecklistItem. rewrite Hitems.
    fold (toggled itemId items).
    rewrite (Hsort _ (toggled_orders itemId items)). by destruct syncDB. }
  rewrite H1. unfold handleToggleChecklistItem at 1. simpl.
  fold (toggled itemId (toggled itemId items)).
  rewrite toggled_twice, (Hsort items eq_refl).
  transitivity (Note.with_items note items);
    [by destruct syncDB | by apply with_items_same].
Qed.

Lemma toggle_twice_restores_note_witness :
  (Note.checklistItems Sample.note = Some [Sample.a; Sample.b]
   ∧ ascending [Sample.a; Sample.b])
  ∧ optimistic
      (optimistic Sample.note (handleToggleChecklistItem Sample.note true "a"))
      (handleToggleChecklistItem
         (optimistic Sample.note
            (handleToggleChecklistItem Sample.note true "a"))
         true "a")
    = Sample.note.
Proof.
  assert (Hasc : ascending [Sample.a; Sample.b]).
  { unfold ascending. simpl. repeat constructor. lia. }
  split; [split; [reflexivity | exact Hasc] |].
  exact (toggle_twice_restores_note Sample.note true "a"
           [Sample.a; Sample.b] eq_refl Hasc).
Defined.

(** ** Delete and edit *)

Lemma delete_optimistic note syncDB itemId items :
  Note.checklistItems note = Some items →
  optimistic note (handleDeleteChecklistItem note syncDB itemId)
  = Note.with_items note (without itemId items).
Proof.
  intros Hitems. unfold handleDeleteChecklistItem. rewrite Hitems.
  by destruct syncDB.
Qed.

Lemma edit_optimistic note syncDB itemId content items :
  Note.checklistItems note = Some items →
  optimistic note (handleEditChecklistItem note syncDB itemId content)
  = Note.with_items note (edited itemId content items).
Proof.
  intros Hitems. unfold handleEditChecklistItem. rewrite Hitems.
  by destruct syncDB.
Qed.

(** X4. Delete shows the checklist without the items that carry the id
    and with the others as they were, in their places and with their
    [order] untouched; deleting the same id again changes nothing. *)
Theorem delete_removes_every_match note syncDB itemId items :
  Note.checklistItems note = Some items →
  optimistic note (handleDeleteChecklistItem note syncDB itemId)
  = Note.with_items note (without itemId items)
  ∧ absent itemId (without itemId items)
  ∧ (∀ item, item ∈ without itemId items
             ↔ item ∈ items ∧ ChecklistItem.id item ≠ itemId)
  ∧ sublist (without itemId items) items
  ∧ optimistic
      (optimistic note (handleDeleteChecklistItem note syncDB itemId))
      (handleDeleteChecklistItem
         (optimistic note (handleDeleteChecklistItem note syncDB itemId))
         syncDB itemId)
    = optimistic note (handleDeleteChecklistItem note syncDB itemId)
  ∧ Note.checklistItems
      (optimistic note (handleDeleteChecklistItem note syncDB itemId))
    = Some (without itemId items)
  ∧ (body_checklistItems ∘ body)
    <$> requests (handleDeleteChecklistItem note true itemId)
    = [without itemId items].
Proof.
  intros Hitems. rewrite (delete_optimistic _ _ _ items Hitems).
  split; [done |]. split; [| split; [| split; [| split; [| split]]]].
  - apply without_is_absent.
  - intros item. apply without_elem.
  - apply without_sublist.
  - rewrite (delete_optimistic _ _ _ (without itemId items)) by done.
    by rewrite (without_absent _ _ (without_is_absent itemId items)).
  - done.
  - unfold handleDeleteChecklistItem. by rewrite Hitems.
Qed.

Lemma delete_removes_every_match_witness :
  Note.checklistItems Sample.note = Some [Sample.a; Sample.b]
  ∧ optimistic Sample.note (handleDeleteChecklistItem Sample.note true "a")
    = Note.with_items Sample.note (without "a" [Sample.a; Sample.b]).
Proof.
  split; [reflexivity |].
  exact (proj1 (delete_removes_every_match Sample.note true "a"
                  [Sample.a; Sample.b] eq_refl)).
Defined.

(** X5. An id that no item carries is no error: delete and edit show the
    note unchanged and still send the whole checklist in a PUT, and so does
    toggle (with the checklist sorted). *)
Theorem unknown_id_still_persists note itemId content items :
  Note.checklistItems note = Some items →
  absent itemId items →
  optimistic note (handleDeleteChecklistItem note true itemId) = note
  ∧ optimistic note (handleEditChecklistItem note true itemId content) = note
  ∧ requests (handleDeleteChecklistItem note true itemId)
    = [PUT (Note.boardId note) (Note.id note) (mk_body items undefined)]
  ∧ requests (handleEditChecklistItem note true itemId content)
    = [PUT (Note.boardId note) (Note.id note) (mk_body items undefined)]
  ∧ requests (handleToggleChecklistItem note true itemId)
    = [PUT (Note.boardId note) (Note.id note)
         (mk_body (Js.sort_by ChecklistItem.order items) undefined)]
  ∧ (body_checklistItems ∘ body)
    <$> requests (handleDeleteChecklistItem note true itemId)
    = [items]
  ∧ (body_checklistItems ∘ body)
    <$> requests (handleEditChecklistItem note true itemId content)
    = [items]
  ∧ (body_checklistItems ∘ body)
    <$> requests (handleToggleChecklistItem note true itemId)
    = [Js.sort_by ChecklistItem.order items]
  ∧ url <$> requests (handleDeleteChecklistItem note true itemId)
    = ["/api/boards/" +:+ Note.boardId note +:+ "/notes/" +:+ Note.id note].
Proof.
  intros Hitems Habs.
  rewrite (delete_optimistic _ _ _ items Hitems).
  rewrite (edit_optimistic _ _ _ _ items Hitems).
  unfold handleDeleteChecklistItem, handleEditChecklistItem,
    handleToggleChecklistItem.
  rewrite Hitems.
  fold (without itemId items). fold (edited itemId content items).
  fold (toggled itemId items).
  rewrite (without_absent _ _ Habs), (edited_absent _ content _ Habs),
    (toggled_absent _ _ Habs).
  rewrite (with_items_same note items Hitems). done.
Qed.

Lemma unknown_id_still_persists_witness :
  (Note.checklistItems Sample.note = Some [Sample.a; Sample.b]
   ∧ absent "zz" [Sample.a; Sample.b])
  ∧ requests (handleDeleteChecklistItem Sample.note true "zz")
    = [PUT "b1" "n1" (mk_body [Sample.a; Sample.b] undefined)].
Proof.
  assert (Habs : absent "zz" [Sample.a; Sample.b]).
  { unfold absent. repeat constructor; discriminate. }
  split; [split; [reflexivity | exact Habs] |].
  exact (proj1 (proj2 (proj2
    (unknown_id_still_persists Sample.note "zz" "w" [Sample.a; Sample.b]
       eq_refl Habs)))).
Defined.

Lemma edited_lookup itemId content items i :
  edited itemId content items !! i
  = (λ item, if String.eqb (ChecklistItem.id item) itemId
             then ChecklistItem.mk (ChecklistItem.id item) content
                    (ChecklistItem.checked item) (ChecklistItem.order item)
             else item) <$> items !! i.
Proof. unfold edited. by rewrite list_lookup_fmap. Qed.

Lemma edited_twice itemId c1 c2 items :
  edited itemId c2 (edited itemId c1 items) = edited itemId c2 items.
Proof.
  unfold edited. rewrite <- list_fmap_compose. apply list_fmap_ext.
  intros _ [i c b o] _. simpl.
  destruct (String.eqb i itemId) eqn:E; simpl; by rewrite E.
Qed.

Lemma edited_commute id1 id2 c1 c2 items :
  id1 ≠ id2 →
  edited id1 c1 (edited id2 c2 items) = edited id2 c2 (edited id1 c1 items).
Proof.
  intros Hne. unfold edited. rewrite <- !list_fmap_compose.
  apply list_fmap_ext. intros _ [i c b o] _. simpl.
  destruct (String.eqb i id1) eqn:E1, (String.eqb i id2) eqn:E2;
    simpl; rewrite ?E1, ?E2; try done.
  apply String.eqb_eq in E1, E2. congruence.
Qed.

(** X6. Edit replaces the content of the items that carry the id and
    nothing else: length, places, ids, flags and orders stay. A second edit
    of the same item overwrites the first. *)
Theorem edit_rewrites_content_only note syncDB itemId content items :
  Note.checklistItems note = Some items →
  optimistic note (handleEditChecklistItem note syncDB itemId content)
  = Note.with_items note (edited itemId content items)
  ∧ length (edited itemId content items) = length items
  ∧ (∀ i, edited itemId content items !! i
          = (λ item, if String.eqb (ChecklistItem.id item) itemId
                     then ChecklistItem.mk (ChecklistItem.id item) content
                            (ChecklistItem.checked item)
                            (ChecklistItem.order item)
                     else item) <$> items !! i)
  ∧ (∀ later,
       optimistic
         (optimistic note (handleEditChecklistItem note syncDB itemId content))
         (handleEditChecklistItem
            (optimistic note
               (handleEditChecklistItem note syncDB itemId content))
            syncDB itemId later)
       = optimistic note (handleEditChecklistItem note syncDB itemId later))
  ∧ Note.checklistItems
      (optimistic note (handleEditChecklistItem note syncDB itemId content))
    = Some (edited itemId content items)
  ∧ (body_checklistItems ∘ body)
    <$> requests (handleEditChecklistItem note true itemId content)
    = [edited itemId content items].
Proof.
  intros Hitems. rewrite (edit_optimistic _ _ _ _ items Hitems).
  split; [done |]. split; [unfold edited; apply length_fmap |].
  split; [intros i; apply edited_lookup |]. split; [| split; [done |]].
  - intros later.
    rewrite (edit_optimistic _ _ _ _ (edited itemId content items)) by done.
    rewrite (edit_optimistic _ _ _ _ items Hitems).
    by rewrite edited_twice.
  - unfold handleEditChecklistItem. by rewrite Hitems.
Qed.

Lemma edit_rewrites_content_only_witness :
  Note.checklistItems Sample.note = Some [Sample.a; Sample.b]
  ∧ optimistic Sample.note (handleEditChecklistItem Sample.note true "a" "new")
    = Note.with_items Sample.note (edited "a" "new" [Sample.a; Sample.b]).
Proof.
  split; [reflexivity |].
  exact (proj1 (edit_rewrites_content_only Sample.note true "a" "new"
                  [Sample.a; Sample.b] eq_refl)).
Defined.

(** X7. Edits of two different items can be applied in either order: the
    note shown at the end is the same. *)
Theorem edits_of_different_items_commute
    note syncDB id1 id2 c1 c2 items :
  Note.checklistItems note = Some items →
  id1 ≠ id2 →
  optimistic
    (optimistic note (handleEditChecklistItem note syncDB id1 c1))
    (handleEditChecklistItem
       (optimistic note (handleEditChecklistItem note syncDB id1 c1))
       syncDB id2 c2)
  = optimistic
      (optimistic note (handleEditChecklistItem note syncDB id2 c2))
      (handleEditChecklistItem
         (optimistic note (handleEditChecklistItem note syncDB id2 c2))
         syncDB id1 c1).
Proof.
  intros Hitems Hne.
  rewrite !(edit_optimistic note _ _ _ items Hitems).
  rewrite (edit_optimistic _ _ _ _ (edited id1 c1 items)) by done.
  rewrite (edit_optimistic _ _ _ _ (edited id2 c2 items)) by done.
  rewrite !with_items_twice. f_equal. symmetry. by apply edited_commute.
Qed.

Lemma edits_of_different_items_commute_witness :
  (Note.checklistItems Sample.note = Some [Sample.a; Sample.b] ∧ "a" ≠ "b")
  ∧ optimistic
      (optimistic Sample.note (handleEditChecklistItem Sample.note true "a" "p"))
      (handleEditChecklistItem
         (optimistic Sample.note
            (handleEditChecklistItem Sample.note true "a" "p"))
         true "b" "q")
    = optimistic
        (optimistic Sample.note
           (handleEditChecklistItem Sample.note true "b" "q"))
        (handleEditChecklistItem
           (optimistic Sample.note
              (handleEditChecklistItem Sample.note true "b" "q"))
           true "a" "p").
Proof.
  assert (Hne : "a" ≠ "b") by discriminate.
  split; [split; [reflexivity | exact Hne] |].
  exact (edits_of_different_items_commute Sample.note true "a" "b" "p" "q"
           [Sample.a; Sample.b] eq_refl Hne).
Defined.

(** ** Add *)

Lemma add_optimistic note syncDB env content :
  optimistic note (handleAddChecklistItem note syncDB env content)
  = Note.with_items_archived note
      (default [] (Note.checklistItems note)
       ++ [ChecklistItem.mk
             ("item_" +:+ date_now env +:+ "_" +:+ random_suffix env)
             content false
             (Z.of_nat (length (default [] (Note.checklistItems note))))])
      null.
Proof.
  unfold handleAddChecklistItem.
  rewrite every_with_unchecked_last by done. by destruct syncDB.
Qed.

Lemma dense_snoc items x :
  dense items → ChecklistItem.order x = Z.of_nat (length items) →
  dense (items ++ [x]).
Proof.
  unfold dense. intros Hd Hx.
  rewrite fmap_app, length_app, seq_app, fmap_app, Hd. simpl. by rewrite Hx.
Qed.

(** X8. Add appends one item whose id is built from the clock and the
    random suffix, whose content is the text given, which is unchecked, and
    whose [order] is the number of items there were, whatever the orders
    of those items are; the request carries the same list. If the orders
    were [0..n-1] they are [0..n] afterwards. *)
Theorem add_appends_with_next_order note syncDB env content :
  ∃ newItem,
    Note.checklistItems
      (optimistic note (handleAddChecklistItem note syncDB env content))
    = Some (default [] (Note.checklistItems note) ++ [newItem])
    ∧ ChecklistItem.id newItem
      = "item_" +:+ date_now env +:+ "_" +:+ random_suffix env
    ∧ ChecklistItem.order newItem
      = Z.of_nat (length (default [] (Note.checklistItems note)))
    ∧ ChecklistItem.content newItem = content
    ∧ ChecklistItem.checked newItem = false
    ∧ (body_checklistItems ∘ body)
      <$> requests (handleAddChecklistItem note true env content)
      = [default [] (Note.checklistItems note) ++ [newItem]]
    ∧ (dense (default [] (Note.checklistItems note)) →
       dense (default [] (Note.checklistItems note) ++ [newItem])).
Proof.
  rewrite add_optimistic. eexists. repeat split.
  intros Hd. by apply dense_snoc.
Qed.

(** X9. Delete does not renumber, and add numbers by the length: after
    deleting one item that is not the last of a checklist with orders
    [0..n-1], the item added next gets the [order] that the last item still
    has. *)
Theorem add_after_delete_reuses_an_order
    note syncDB env itemId content items kept :
  Note.checklistItems note = Some items →
  dense items →
  last items = Some kept →
  ChecklistItem.id kept ≠ itemId →
  S (length (without itemId items)) = length items →
  ∃ newItem,
    Note.checklistItems
      (optimistic
         (optimistic note (handleDeleteChecklistItem note syncDB itemId))
         (handleAddChecklistItem
            (optimistic note (handleDeleteChecklistItem note syncDB itemId))
            syncDB env content))
    = Some (without itemId items ++ [newItem])
    ∧ kept ∈ without itemId items
    ∧ ChecklistItem.order newItem = ChecklistItem.order kept.
Proof.
  intros Hitems Hd Hlast Hid Hlen.
  rewrite (delete_optimistic _ _ _ items Hitems), add_optimistic. simpl.
  eexists. split; [reflexivity |]. split.
  - apply without_elem. split; [| done].
    apply last_Some in Hlast as [front ->].
    apply elem_of_app. right. by apply list_elem_of_singleton.
  - simpl. apply last_Some in Hlast as [front ->].
    unfold dense in Hd. rewrite length_app in Hd, Hlen. simpl in Hd, Hlen.
    rewrite fmap_app, seq_app, fmap_app in Hd. simpl in Hd.
    apply app_inj_2 in Hd as [_ [= ->]]; [| done]. lia.
Qed.

Lemma add_after_delete_reuses_an_order_witness :
  (Note.checklistItems Sample.note = Some [Sample.a; Sample.b]
   ∧ dense [Sample.a; Sample.b]
   ∧ last [Sample.a; Sample.b] = Some Sample.b
   ∧ ChecklistItem.id Sample.b ≠ "a"
   ∧ S (length (without "a" [Sample.a; Sample.b]))
     = length [Sample.a; Sample.b])
  ∧ ∃ newItem,
      Note.checklistItems
        (optimistic
           (optimistic Sample.note
              (handleDeleteChecklistItem Sample.note true "a"))
           (handleAddChecklistItem
              (optimistic Sample.note
                 (handleDeleteChecklistItem Sample.note true "a"))
              true Sample.env "z"))
      = Some (without "a" [Sample.a; Sample.b] ++ [newItem])
      ∧ Sample.b ∈ without "a" [Sample.a; Sample.b]
      ∧ ChecklistItem.order newItem = ChecklistItem.order Sample.b.
Proof.
  assert (Hne : ChecklistItem.id Sample.b ≠ "a") by discriminate.
  split; [repeat split; (reflexivity || exact Hne) |].
  exact (add_after_delete_reuses_an_order Sample.note true Sample.env "a" "z"
           [Sample.a; Sample.b] Sample.b eq_refl eq_refl eq_refl Hne eq_refl).
Defined.

(** ** Reorder, once more *)

Lemma findIndex_from_flags {A} (p : A → bool) k l :
  Js.findIndex_from p k l = Js.findIndex_from (λ b : bool, b) k (p <$> l).
Proof.
  revert k. induction l as [|x l IH]; intros k; simpl; [done |].
  by rewrite IH.
Qed.

Lemma reindexed_flags l :
  ChecklistItem.checked <$> reindexed l = ChecklistItem.checked <$> l.
Proof. by apply reindexed_keeps. Qed.

Lemma guard_reindexed l :
  unchecked_after_checked (reindexed l) = unchecked_after_checked l.
Proof.
  unfold unchecked_after_checked, Js.findIndex.
  by rewrite !(findIndex_from_flags ChecklistItem.checked), !reindexed_flags.
Qed.

Lemma reindexed_dense l : dense (reindexed l).
Proof. unfold dense. by rewrite reindexed_orders, reindexed_length. Qed.

Lemma dense_ascending l : dense l → ascending l.
Proof.
  unfold dense, ascending. intros ->. generalize 0%nat.
  induction (length l) as [|n IH]; intros k; simpl; [constructor |].
  constructor; [apply IH |]. destruct n; simpl; constructor. lia.
Qed.

Lemma dense_reindexed l : dense l → reindexed l = l.
Proof.
  intros Hd. apply list_eq. intros i. rewrite reindexed_lookup.
  destruct (l !! i) as [[d c b o]|] eqn:Hi; simpl; [| done].
  unfold ChecklistItem.with_order. simpl. do 2 f_equal.
  assert (Ho : (ChecklistItem.order <$> l) !! i = Some o)
    by (by rewrite list_lookup_fmap, Hi).
  rewrite Hd, list_lookup_fmap in Ho.
  rewrite lookup_seq_lt in Ho by (by eapply lookup_lt_Some).
  simpl in Ho. by injection Ho.
Qed.

(** X10. After an accepted reorder the checklist shown is in order, so a
    toggle on it flips the flag and moves nothing; and submitting the shown
    sequence once more shows the same note. *)
Theorem toggle_after_reorder_keeps_positions
    note syncDB env noteId newItems itemId net :
  ¬ rejected net (handleReorderChecklistItems note syncDB env noteId newItems) →
  optimistic
    (optimistic note
       (handleReorderChecklistItems note syncDB env noteId newItems))
    (handleToggleChecklistItem
       (optimistic note
          (handleReorderChecklistItems note syncDB env noteId newItems))
       syncDB itemId)
  = Note.with_items note (toggled itemId (reindexed newItems))
  ∧ optimistic
      (optimistic note
         (handleReorderChecklistItems note syncDB env noteId newItems))
      (handleReorderChecklistItems
         (optimistic note
            (handleReorderChecklistItems note syncDB env noteId newItems))
         syncDB env noteId (reindexed newItems))
    = optimistic note
        (handleReorderChecklistItems note syncDB env noteId newItems)
  ∧ Note.checklistItems
      (optimistic
         (optimistic note
            (handleReorderChecklistItems note syncDB env noteId newItems))
         (handleToggleChecklistItem
            (optimistic note
               (handleReorderChecklistItems note syncDB env noteId newItems))
            syncDB itemId))
    = Some (toggled itemId (reindexed newItems)).
Proof.
  intros Hacc. rewrite reorder_rejected_iff in Hacc.
  destruct (Note.checklistItems note) as [items|] eqn:Hitems;
    [| destruct Hacc; by left].
  destruct (unchecked_after_checked newItems) eqn:Hguard;
    [destruct Hacc; by right |].
  assert (H1 : optimistic note
            (handleReorderChecklistItems note syncDB env noteId newItems)
          = Note.with_items note (reindexed newItems)).
  { rewrite (reorder_proceeds _ _ _ _ _ items Hitems Hguard).
    by destruct syncDB. }
  rewrite H1.
  assert (H2 : optimistic (Note.with_items note (reindexed newItems))
            (handleToggleChecklistItem
               (Note.with_items note (reindexed newItems)) syncDB itemId)
          = Note.with_items note (toggled itemId (reindexed newItems))).
  { unfold handleToggleChecklistItem. simpl.
    fold (toggled itemId (reindexed newItems)).
    rewrite sort_by_fixed.
    - by destruct syncDB.
    - rewrite toggled_orders. apply dense_ascending, reindexed_dense. }
  rewrite H2. split; [done |]. split; [| done].
  rewrite (reorder_proceeds _ _ _ _ _ (reindexed newItems));
    [| done | by rewrite guard_reindexed].
  rewrite (dense_reindexed _ (reindexed_dense newItems)).
  by destruct syncDB.
Qed.

Lemma toggle_after_reorder_keeps_positions_witness :
  ¬ rejected network_down
      (handleReorderChecklistItems Sample.note true Sample.env "n1"
         [Sample.b; Sample.a])
  ∧ optimistic
      (optimistic Sample.note
         (handleReorderChecklistItems Sample.note true Sample.env "n1"
            [Sample.b; Sample.a]))
      (handleToggleChecklistItem
         (optimistic Sample.note
            (handleReorderChecklistItems Sample.note true Sample.env "n1"
               [Sample.b; Sample.a]))
         true "a")
    = Note.with_items Sample.note
        (toggled "a" (reindexed [Sample.b; Sample.a])).
Proof.
  assert (H : ¬ rejected network_down
      (handleReorderChecklistItems Sample.note true Sample.env "n1"
         [Sample.b; Sample.a])).
  { intros [H _]. vm_compute in H. discriminate H. }
  split; [exact H |].
  exact (proj1 (toggle_after_reorder_keeps_positions Sample.note true
                  Sample.env "n1" [Sample.b; Sample.a] "a" network_down H)).
Defined.

(** ** The outcome of the request *)

(** The handlers, one case per way through their guards. *)
Ltac handler_cases note :=
  unfold handleToggleChecklistItem, handleEditChecklistItem,
    handleDeleteChecklistItem, handleReorderChecklistItems,
    handleAddChecklistItem;
  destruct (Note.checklistItems note); simpl;
  repeat match goal with
         | |- context [unchecked_after_checked ?l] =>
           destruct (unchecked_after_checked l); simpl
         end.

(** X11. When the server answers ok with a canonical note, that note
    replaces the optimistic one, for each handler that got as far as
    sending the request. *)
Theorem ok_response_replaces_note note env canonical :
  (∀ content,
     settled (server_accepts canonical) note
       (handleAddChecklistItem note true env content) = canonical)
  ∧ (∀ itemId,
       settled (server_accepts canonical) note
         (handleToggleChecklistItem note true itemId)
       = match Note.checklistItems note with
         | Some _ => canonical
         | None => note
         end)
  ∧ (∀ itemId content,
       settled (server_accepts canonical) note
         (handleEditChecklistItem note true itemId content)
       = match Note.checklistItems note with
         | Some _ => canonical
         | None => note
         end)
  ∧ (∀ itemId,
       settled (server_accepts canonical) note
         (handleDeleteChecklistItem note true itemId)
       = match Note.checklistItems note with
         | Some _ => canonical
         | None => note
         end)
  ∧ (∀ noteId newItems,
       settled (server_accepts canonical) note
         (handleReorderChecklistItems note true env noteId newItems)
       = match Note.checklistItems note with
         | Some _ =>
           if unchecked_after_checked newItems then note else canonical
         | None => note
         end).
Proof.
  unfold settled. repeat split; intros; handler_cases note; done.
Qed.


(** X13. Whatever the network answers, a call of a handler sends at most
    one request and calls [onUpdate] at most twice, and every request it
    sends is a PUT to [/api/boards/<boardId>/notes/<id>]: toggle, edit,
    delete and add with the note's own id, reorder with the id it was
    handed. *)
Theorem one_put_per_call note syncDB env net :
  (∀ a,
     (length (sent (run net (Card.perform note syncDB env a) (start note)))
      ≤ 1)%nat
     ∧ (length (updates net (Card.perform note syncDB env a)) ≤ 2)%nat
     ∧ ∀ req,
         req ∈ sent (run net (Card.perform note syncDB env a) (start note)) →
         method req = "PUT"
         ∧ url req
           = "/api/boards/" +:+ Note.boardId note +:+ "/notes/"
             +:+ Note.id note)
  ∧ (∀ noteId newItems,
       (length
          (sent
             (run net
                (handleReorderChecklistItems note syncDB env noteId newItems)
                (start note)))
        ≤ 1)%nat
       ∧ (length
            (updates net
               (handleReorderChecklistItems note syncDB env noteId newItems))
          ≤ 2)%nat
       ∧ ∀ req,
           req ∈ sent
                   (run net
                      (handleReorderChecklistItems note syncDB env noteId
                         newItems)
                      (start note)) →
           method req = "PUT"
           ∧ url req
             = "/api/boards/" +:+ Note.boardId note +:+ "/notes/" +:+ noteId).
Proof.
  split.
  - intros a. destruct a; simpl;
      try (split; [lia | split; [lia | by intros req ?%elem_of_nil]]);
      handler_cases note; destruct syncDB; simpl;
      try (split; [lia | split; [lia | by intros req ?%elem_of_nil]]);
      destruct (net _) as [|[[] []]]; simpl;
      (split; [lia | split; [lia | by intros req ->%list_elem_of_singleton]]).
  - intros noteId newItems. handler_cases note; destruct syncDB; simpl;
      try (split; [lia | split; [lia | by intros req ?%elem_of_nil]]);
      destruct (net _) as [|[[] []]]; simpl;
      (split; [lia | split; [lia | by intros req ->%list_elem_of_singleton]]).
Qed.


(** ** Trimming *)

Lemma string_app_cons c (s1 s2 : string) :
  String c s1 +:+ s2 = String c (s1 +:+ s2).
Proof. reflexivity. Qed.

Lemma string_app_assoc (s1 s2 s3 : string) :
  (s1 +:+ s2) +:+ s3 = s1 +:+ (s2 +:+ s3).
Proof.
  induction s1 as [|c s1 IH]; [done |].
  by rewrite !string_app_cons, IH.
Qed.

Lemma rev_app_spec s1 s2 : String.rev_app s1 s2 = String.rev s1 +:+ s2.
Proof.
  unfold String.rev. revert s2.
  induction s1 as [|c s1 IH]; intros s2; simpl; [done |].
  rewrite (IH (String c s2)), (IH (String c "")).
  by rewrite string_app_assoc.
Qed.

Lemma rev_cons c s : String.rev (String c s) = String.rev s +:+ String c "".
Proof. unfold String.rev at 1. simpl. apply rev_app_spec. Qed.

Lemma rev_snoc c s : String.rev (s +:+ String c "") = String c (String.rev s).
Proof.
  induction s as [|d s IH]; [done |].
  by rewrite string_app_cons, !rev_cons, IH.
Qed.

Lemma rev_involutive s : String.rev (String.rev s) = s.
Proof.
  induction s as [|c s IH]; [done |]. by rewrite rev_cons, rev_snoc, IH.
Qed.

Lemma trimStart_clean s : starts_clean (Js.trimStart s).
Proof.
  induction s as [|c s IH]; simpl; [done |].
  by destruct (Js.is_space c) eqn:E.
Qed.

Lemma clean_trimStart s : starts_clean s → Js.trimStart s = s.
Proof. destruct s as [|c s]; simpl; [done |]. by intros ->. Qed.

Lemma trimStart_snoc s c :
  Js.is_space c = false →
  Js.trimStart (s +:+ String c "") = Js.trimStart s +:+ String c "".
Proof.
  intros Hc. induction s as [|d s IH]; [by simpl; rewrite Hc |].
  rewrite string_app_cons. simpl. by destruct (Js.is_space d).
Qed.

Lemma trimEnd_clean s : starts_clean s → starts_clean (Js.trimEnd s).
Proof.
  destruct s as [|c s]; [done |]. simpl. intros Hc. unfold Js.trimEnd.
  by rewrite rev_cons, (trimStart_snoc _ _ Hc), rev_snoc.
Qed.

Lemma trimEnd_idempotent s : Js.trimEnd (Js.trimEnd s) = Js.trimEnd s.
Proof.
  unfold Js.trimEnd. rewrite rev_involutive.
  by rewrite (clean_trimStart _ (trimStart_clean _)).
Qed.

Lemma trim_idempotent s : Js.trim (Js.trim s) = Js.trim s.
Proof.
  unfold Js.trim.
  rewrite (clean_trimStart (Js.trimEnd (Js.trimStart s)))
    by apply trimEnd_clean, trimStart_clean.
  apply trimEnd_idempotent.
Qed.

Lemma trim_clean s : starts_clean (Js.trim s).
Proof. apply trimEnd_clean, trimStart_clean. Qed.

(** ** Keys and blur in a row *)

(** X15. Escape in the row of an item calls [handleStopEditItem] and
    nothing else: no handler is called, and the editing state is back to
    none with an empty draft. *)
Theorem escape_discards_draft note currentUser readonly ui item shift ref :
  fst (ItemRow.handleKeyDown (Board.item_row note currentUser readonly ui item)
         (ItemRow.mk_key "Escape" shift) ref)
  = [ItemRow.Call (Board.SetEditingItem None);
     ItemRow.Call (Board.SetEditingItemContent "")]
  ∧ snd (ItemRow.handleKeyDown
           (Board.item_row note currentUser readonly ui item)
           (ItemRow.mk_key "Escape" shift) ref)
    = ref
  ∧ Board.after ui
      (fst (ItemRow.handleKeyDown
              (Board.item_row note currentUser readonly ui item)
              (ItemRow.mk_key "Escape" shift) ref))
    = Board.mk_ui None "" (Board.newItemContent ui).
Proof.
  unfold ItemRow.handleKeyDown. simpl.
  destruct (Board.is_editing ui item); done.
Qed.


(** X17. A key other than Enter and Escape does nothing in a row, unless
    it is Backspace on a draft that trims to the empty string. *)
Theorem other_keys_do_nothing {Act} (props : ItemRow.Props Act) e ref :
  ItemRow.key e ≠ "Enter" →
  ItemRow.key e ≠ "Escape" →
  ItemRow.key e ≠ "Backspace"
  ∨ (∀ draft, ItemRow.editContent props = Some draft → Js.trim draft ≠ "") →
  ItemRow.handleKeyDown props e ref = ([], ref).
Proof.
  intros Henter Hesc Hback. unfold ItemRow.handleKeyDown.
  apply String.eqb_neq in Henter, Hesc. rewrite Henter, Hesc. simpl.
  destruct Hback as [Hback | Hdraft].
  - apply String.eqb_neq in Hback. by rewrite Hback.
  - destruct (ItemRow.editContent props) as [draft|];
      [| by rewrite andb_false_r].
    specialize (Hdraft draft eq_refl). apply String.eqb_neq in Hdraft.
    by rewrite Hdraft, andb_false_r.
Qed.

Lemma other_keys_do_nothing_witness :
  (ItemRow.key (ItemRow.mk_key "Backspace" false) ≠ "Enter"
   ∧ ItemRow.key (ItemRow.mk_key "Backspace" false) ≠ "Escape"
   ∧ (ItemRow.key (ItemRow.mk_key "Backspace" false) ≠ "Backspace"
      ∨ ∀ draft,
          ItemRow.editContent
            (Board.item_row Sample.note (Some Sample.ada) false
               (Sample.editing_a "milk") Sample.a)
          = Some draft →
          Js.trim draft ≠ ""))
  ∧ ItemRow.handleKeyDown
      (Board.item_row Sample.note (Some Sample.ada) false
         (Sample.editing_a "milk") Sample.a)
      (ItemRow.mk_key "Backspace" false) false
    = ([], false).
Proof.
  assert (H1 : ItemRow.key (ItemRow.mk_key "Backspace" false) ≠ "Enter")
    by discriminate.
  assert (H2 : ItemRow.key (ItemRow.mk_key "Backspace" false) ≠ "Escape")
    by discriminate.
  assert (H3 : ItemRow.key (ItemRow.mk_key "Backspace" false) ≠ "Backspace"
      ∨ ∀ draft,
          ItemRow.editContent
            (Board.item_row Sample.note (Some Sample.ada) false
               (Sample.editing_a "milk") Sample.a)
          = Some draft →
          Js.trim draft ≠ "").
  { right. intros draft [= <-]. discriminate. }
  split; [by repeat split |].
  exact (other_keys_do_nothing _ _ false H1 H2 H3).
Defined.

Lemma canEdit_truthy note currentUser readonly :
  Board.canEdit note currentUser readonly
  = default false (Board.canEdit_value note currentUser readonly).
Proof.
  unfold Board.canEdit, Board.canEdit_value.
  destruct readonly, currentUser as [u|]; simpl; try done.
  by destruct (String.eqb _ _).
Qed.

(** X18. Pressing the trash button of a row sets [deletingRef], so the
    blur that follows is swallowed (nothing is committed, the ref is
    reset); the click then calls [handleDeleteChecklistItem] once. The
    button is rendered when the note is not readonly and the user is its
    author, or has [isAdmin] true, or has no [isAdmin] member at all, or
    is missing: an undefined [canEdit] leaves [showDeleteButton] at its
    default. So it is rendered whenever the user can edit, and also for
    some users who cannot. *)
Theorem trash_button_deletes_without_saving
    note currentUser readonly ui item ref :
  ItemRow.handleBlur (Board.item_row note currentUser readonly ui item)
    (ItemControls.deleteButton_onMouseDown ref)
  = ([], false)
  ∧ Card.handler_calls
      (ItemControls.calls
         (ItemControls.deleteButton_onClick
            (Board.item_row note currentUser readonly ui item)))
    = [Board.Delete (ChecklistItem.id item)]
  ∧ ItemControls.deleteButton_rendered
      (Board.item_row note currentUser readonly ui item)
    = negb readonly
      && match currentUser with
         | Some u =>
           String.eqb (Board.user_id u) (Note.author_id (Note.user note))
           || default true (Board.isAdmin u)
         | None => true
         end
  ∧ (Board.canEdit note currentUser readonly = true →
     ItemControls.deleteButton_rendered
       (Board.item_row note currentUser readonly ui item)
     = true)
  ∧ ItemControls.deleteButton_rendered
      (Board.item_row note None false ui item)
    = true
  ∧ Board.canEdit note None false = false.
Proof.
  split; [done |]. split; [done |].
  assert (Hr : ItemControls.deleteButton_rendered
      (Board.item_row note currentUser readonly ui item)
    = negb readonly
      && match currentUser with
         | Some u =>
           String.eqb (Board.user_id u) (Note.author_id (Note.user note))
           || default true (Board.isAdmin u)
         | None => true
         end).
  { unfold ItemControls.deleteButton_rendered, Board.item_row,
      Board.canEdit_value. simpl.
    destruct readonly, currentUser as [u|]; simpl; try done.
    destruct (String.eqb _ _); simpl; [done |].
    destruct (Board.isAdmin u) as [[]|]; done. }
  split; [exact Hr |]. split; [| done].
  intros Hcan. rewrite Hr. unfold Board.canEdit in Hcan.
  destruct readonly, currentUser as [u|]; simpl in *; try done.
  destruct (String.eqb _ _); simpl in *; [done |].
  by destruct (Board.isAdmin u) as [[]|].
Qed.

(** ** The new-item rows *)

(** X19. The new-item row calls no handler but add, and add only on Enter
    without shift or on blur with a draft that does not trim to the empty
    string; the content added is the trimmed draft, which never starts with
    white space, and the blur leaves the draft empty. *)
Theorem new_item_row_adds_trimmed_draft ui e ref :
  Card.handler_calls
    (Card.row_calls (fst (ItemRow.handleKeyDown (Board.new_item_row ui) e ref)))
  = (if String.eqb (ItemRow.key e) "Enter" && negb (ItemRow.shiftKey e)
        && Js.truthy (Js.trim (Board.newItemContent ui))
     then [Board.Add (Js.trim (Board.newItemContent ui))]
     else [])
  ∧ Card.handler_calls
      (Card.row_calls (fst (ItemRow.handleBlur (Board.new_item_row ui) false)))
    = (if Js.truthy (Js.trim (Board.newItemContent ui))
       then [Board.Add (Js.trim (Board.newItemContent ui))]
       else [])
  ∧ Board.newItemContent
      (Board.after ui (fst (ItemRow.handleBlur (Board.new_item_row ui) false)))
    = ""
  ∧ starts_clean (Js.trim (Board.newItemContent ui)).
Proof.
  unfold ItemRow.handleKeyDown, ItemRow.handleBlur, ItemRow.creating. simpl.
  set (t := Js.trim (Board.newItemContent ui)).
  assert (Hc : Board.handleCreateNewItem t
               = if Js.truthy t
                 then [Board.Add t; Board.SetNewItemContent ""] else []).
  { unfold Board.handleCreateNewItem, t. by rewrite trim_idempotent. }
  split; [| split; [| split; [| apply trim_clean]]].
  - destruct (Js.truthy t) eqn:Htr;
      destruct (String.eqb (ItemRow.key e) "Enter"),
        (ItemRow.shiftKey e), ref,
        (String.eqb (ItemRow.key e) "Escape"),
        (String.eqb (ItemRow.key e) "Backspace"),
        (String.eqb t ""); simpl; rewrite ?Hc; done.
  - destruct (Js.truthy t); simpl; rewrite ?Hc; done.
  - destruct (Js.truthy t); simpl; rewrite ?Hc; done.
Qed.

(** X20. The additional new-item row is rendered with [editContent=""]
    and inert callbacks: no key and no blur makes it call anything, add
    included. *)
Theorem additional_row_calls_nothing e ref :
  Card.row_calls (fst (ItemRow.handleKeyDown Card.additional_row e ref)) = []
  ∧ Card.row_calls (fst (ItemRow.handleBlur Card.additional_row ref)) = [].
Proof.
  unfold ItemRow.handleKeyDown, ItemRow.handleBlur, ItemRow.creating. simpl.
  split; [| by destruct ref].
  destruct (String.eqb (ItemRow.key e) "Enter"), (ItemRow.shiftKey e), ref,
    (String.eqb (ItemRow.key e) "Escape"),
    (String.eqb (ItemRow.key e) "Backspace"); done.
Qed.

(** ** Who may change a note *)

Lemma canEdit_not_readonly note currentUser readonly :
  Board.canEdit note currentUser readonly = true → readonly = false.
Proof. unfold Board.canEdit. by destruct readonly. Qed.

(** X21. A readonly note offers no way to change it: no header button, no
    new-item row, no trash button, and checkbox, focus and drag and drop
    call nothing. *)
Theorem readonly_note_offers_no_change
    note syncDB env currentUser onArchive onUnarchive ui item newItems :
  Board.canEdit note currentUser true = false
  ∧ Card.copy_button note currentUser true = false
  ∧ Card.delete_button note currentUser true = false
  ∧ Card.archive_button note currentUser true onArchive = false
  ∧ Card.unarchive_button note currentUser true onUnarchive = false
  ∧ Card.new_item_rendered note currentUser true = false
  ∧ Card.additional_rendered note currentUser true ui = false
  ∧ Card.onItemsChange note syncDB env currentUser true newItems = Return
  ∧ ItemControls.checkbox_onCheckedChange
      (Board.item_row note currentUser true ui item)
    = []
  ∧ ItemControls.calls
      (ItemControls.textarea_onFocus
         (Board.item_row note currentUser true ui item))
    = []
  ∧ ItemControls.deleteButton_rendered
      (Board.item_row note currentUser true ui item)
    = false.
Proof.
  repeat split.
  - unfold ItemControls.textarea_onFocus. simpl.
    by destruct (Board.is_editing ui item).
Qed.

(** X22. For a user who may not edit (neither the author nor an admin) the
    header buttons, the new-item row, drag and drop and the start of an
    editing session are off. Two controls of a row are not: the checkbox,
    guarded by [readonly] alone, still calls [handleToggleChecklistItem];
    and the trash button, handed an undefined [canEdit] when such a user is
    missing or has no [isAdmin] member, is still rendered and its click
    still calls [handleDeleteChecklistItem]. *)
Theorem viewer_without_edit_right
    note syncDB env currentUser readonly onArchive onUnarchive ui item
    newItems :
  Board.canEdit note currentUser readonly = false →
  Card.copy_button note currentUser readonly = false
  ∧ Card.delete_button note currentUser readonly = false
  ∧ Card.archive_button note currentUser readonly onArchive = false
  ∧ Card.unarchive_button note currentUser readonly onUnarchive = false
  ∧ Card.new_item_rendered note currentUser readonly = false
  ∧ Card.onItemsChange note syncDB env currentUser readonly newItems = Return
  ∧ (∀ itemId, Board.handleStartEditItem note currentUser readonly itemId = [])
  ∧ ItemControls.calls
      (ItemControls.checkbox_onCheckedChange
         (Board.item_row note currentUser readonly ui item))
    = (if readonly then [] else [Board.Toggle (ChecklistItem.id item)])
  ∧ ItemControls.deleteButton_rendered
      (Board.item_row note currentUser readonly ui item)
    = negb readonly
      && match currentUser with
         | Some u =>
           match Board.isAdmin u with Some _ => false | None => true end
         | None => true
         end
  ∧ Card.handler_calls
      (ItemControls.calls
         (ItemControls.deleteButton_onClick
            (Board.item_row note currentUser readonly ui item)))
    = [Board.Delete (ChecklistItem.id item)].
Proof.
  intros Hno.
  unfold Card.copy_button, Card.delete_button, Card.archive_button,
    Card.unarchive_button, Card.new_item_rendered, Card.onItemsChange,
    Board.handleStartEditItem, ItemControls.checkbox_onCheckedChange.
  simpl. rewrite Hno.
  split; [done |]. split; [done |]. split; [done |]. split; [done |].
  split; [done |]. split; [done |]. split.
  { intros itemId. by destruct (List.find _ _). }
  split; [by destruct readonly |]. split; [| done].
  unfold ItemControls.deleteButton_rendered, Board.item_row,
    Board.canEdit_value. simpl.
  unfold Board.canEdit in Hno.
  destruct readonly, currentUser as [u|]; simpl in *; try done.
  destruct (String.eqb _ _); simpl in *; [done |].
  by destruct (Board.isAdmin u) as [[]|].
Qed.

Lemma viewer_without_edit_right_witness :
  Board.canEdit Sample.note None false = false
  ∧ ItemControls.calls
      (ItemControls.checkbox_onCheckedChange
         (Board.item_row Sample.note None false (Sample.editing_a "") Sample.a))
    = [Board.Toggle "a"]
  ∧ ItemControls.deleteButton_rendered
      (Board.item_row Sample.note None false (Sample.editing_a "") Sample.a)
    = true
  ∧ Card.handler_calls
      (ItemControls.calls
         (ItemControls.deleteButton_onClick
            (Board.item_row Sample.note None false (Sample.editing_a "")
               Sample.a)))
    = [Board.Delete "a"].
Proof.
  pose proof (viewer_without_edit_right Sample.note true Sample.env None false
                false false (Sample.editing_a "") Sample.a [] eq_refl)
    as (_ & _ & _ & _ & _ & _ & _ & Hbox & Htrash & Hclick).
  split; [reflexivity |]. split; [exact Hbox |].
  split; [exact Htrash | exact Hclick].
Defined.

(** ** Starting and leaving an editing session *)

Lemma find_by_unique_id items item :
  NoDup (ChecklistItem.id <$> items) →
  item ∈ items →
  List.find (λ i, String.eqb (ChecklistItem.id i) (ChecklistItem.id item)) items
  = Some item.
Proof.
  induction items as [|x l IH]; simpl; intros Hnd Hin.
  - by apply elem_of_nil in Hin.
  - apply NoDup_cons in Hnd as [Hx Hnd].
    apply elem_of_cons in Hin as [-> | Hin].
    + by rewrite String.eqb_refl.
    + destruct (String.eqb_spec (ChecklistItem.id x) (ChecklistItem.id item))
        as [Heq | _]; [| by apply IH].
      destruct Hx. rewrite Heq. by apply list_elem_of_fmap_2.
Qed.


(** X23. Focusing the row of an item of an editable note (ids without
    repetition) opens the editing session of that item with its committed
    content as the draft, which is then what the textarea shows. *)
Theorem focus_opens_session_with_committed_text
    note currentUser readonly ui items item :
  Note.checklistItems note = Some items →
  NoDup (ChecklistItem.id <$> items) →
  item ∈ items →
  Board.canEdit note currentUser readonly = true →
  Board.is_editing ui item = false →
  ItemControls.calls
    (ItemControls.textarea_onFocus
       (Board.item_row note currentUser readonly ui item))
  = [Board.SetEditingItem (Some (ChecklistItem.id item));
     Board.SetEditingItemContent (ChecklistItem.content item)]
  ∧ Board.apply_acts ui
      (ItemControls.calls
         (ItemControls.textarea_onFocus
            (Board.item_row note currentUser readonly ui item)))
    = Board.mk_ui (Some (ChecklistItem.id item)) (ChecklistItem.content item)
        (Board.newItemContent ui)
  ∧ ItemControls.textarea_value
      (Board.item_row note currentUser readonly
         (Board.mk_ui (Some (ChecklistItem.id item))
            (ChecklistItem.content item) (Board.newItemContent ui))
         item)
    = ChecklistItem.content item.
Proof.
  intros Hitems Hnd Hin Hcan Hidle.
  pose proof (canEdit_not_readonly _ _ _ Hcan) as ->.
  assert (Hcalls : ItemControls.calls
    (ItemControls.textarea_onFocus
       (Board.item_row note currentUser false ui item))
    = [Board.SetEditingItem (Some (ChecklistItem.id item));
       Board.SetEditingItemContent (ChecklistItem.content item)]).
  { unfold ItemControls.textarea_onFocus. simpl. rewrite Hidle. simpl.
    unfold Board.handleStartEditItem.
    rewrite Hitems. simpl. rewrite (find_by_unique_id items item Hnd Hin).
    by rewrite Hcan. }
  rewrite Hcalls. repeat split.
  unfold ItemControls.textarea_value, Board.item_row, Board.is_editing. simpl.
  by rewrite String.eqb_refl.
Qed.

Lemma focus_opens_session_with_committed_text_witness :
  (Note.checklistItems Sample.note = Some [Sample.a; Sample.b]
   ∧ NoDup (ChecklistItem.id <$> [Sample.a; Sample.b])
   ∧ Sample.a ∈ [Sample.a; Sample.b]
   ∧ Board.canEdit Sample.note (Some Sample.ada) false = true
   ∧ Board.is_editing (Board.mk_ui None "" "") Sample.a = false)
  ∧ ItemControls.calls
      (ItemControls.textarea_onFocus
         (Board.item_row Sample.note (Some Sample.ada) false
            (Board.mk_ui None "" "") Sample.a))
    = [Board.SetEditingItem (Some "a"); Board.SetEditingItemContent "x"].
Proof.
  assert (Hnd : NoDup (ChecklistItem.id <$> [Sample.a; Sample.b])).
  { simpl. apply NoDup_cons. split.
    - intros H. apply list_elem_of_singleton in H. discriminate H.
    - apply NoDup_singleton. }
  assert (Hin : Sample.a ∈ [Sample.a; Sample.b]) by apply list_elem_of_here.
  split; [repeat split; (reflexivity || assumption) |].
  exact (proj1 (focus_opens_session_with_committed_text Sample.note
                  (Some Sample.ada) false (Board.mk_ui None "" "")
                  [Sample.a; Sample.b] Sample.a
                  eq_refl Hnd Hin eq_refl eq_refl)).
Defined.



(** ** The author label *)

Lemma split_first_prefix sep s : ∃ rest, s = Card.split_first sep s +:+ rest.
Proof.
  induction s as [|c s [rest IH]]; simpl; [by exists "" |].
  destruct (Ascii.eqb c sep).
  - by exists (String c s).
  - exists rest. rewrite string_app_cons. by f_equal.
Qed.

Lemma split_first_no_sep sep s : sep ∉ chars (Card.split_first sep s).
Proof.
  induction s as [|c s IH]; simpl; [apply not_elem_of_nil |].
  destruct (Ascii.eqb_spec c sep) as [-> | Hne]; simpl;
    [apply not_elem_of_nil |].
  apply not_elem_of_cons. split; [congruence | done].
Qed.

Lemma split_first_whole sep s : sep ∉ chars s → Card.split_first sep s = s.
Proof.
  induction s as [|c s IH]; simpl; [done |].
  intros [Hc Hs]%not_elem_of_cons.
  destruct (Ascii.eqb_spec c sep) as [-> | _]; [done |]. by rewrite IH.
Qed.

Lemma split_first_cut sep s :
  ∃ rest,
    s = Card.split_first sep s +:+ rest
    ∧ (rest = "" ∨ ∃ tail, rest = String sep tail).
Proof.
  induction s as [|c s (rest & IH & Hrest)]; simpl.
  - exists "". by split; [| left].
  - destruct (Ascii.eqb_spec c sep) as [-> | Hne].
    + exists (String sep s). split; [done |]. right. by exists s.
    + exists rest. split; [| done]. rewrite string_app_cons. by f_equal.
Qed.

(** X25. The label next to the avatar is the author's name cut in front of
    its first space, or, when the name is missing or empty, the email cut
    in front of its first [@]: the label contains no such separator, and
    what was cut off is empty or starts with the separator. A name or
    email without separator is shown in full. *)
Theorem author_label_is_first_word note :
  (∃ rest,
     (match Note.name (Note.user note) with
      | value n => if Js.truthy n then n else Note.email (Note.user note)
      | _ => Note.email (Note.user note)
      end)
     = Card.author_label note +:+ rest)
  ∧ ((match Note.name (Note.user note) with
      | value n => if Js.truthy n then Card.space else Card.at_sign
      | _ => Card.at_sign
      end) ∉ chars (Card.author_label note))
  ∧ (∃ rest,
       (match Note.name (Note.user note) with
        | value n => if Js.truthy n then n else Note.email (Note.user note)
        | _ => Note.email (Note.user note)
        end)
       = Card.author_label note +:+ rest
       ∧ (rest = ""
          ∨ ∃ tail,
              rest
              = String
                  (match Note.name (Note.user note) with
                   | value n =>
                     if Js.truthy n then Card.space else Card.at_sign
                   | _ => Card.at_sign
                   end)
                  tail))
  ∧ (((match Note.name (Note.user note) with
       | value n => if Js.truthy n then Card.space else Card.at_sign
       | _ => Card.at_sign
       end)
      ∉ chars
          (match Note.name (Note.user note) with
           | value n => if Js.truthy n then n else Note.email (Note.user note)
           | _ => Note.email (Note.user note)
           end)) →
     Card.author_label note
     = (match Note.name (Note.user note) with
        | value n => if Js.truthy n then n else Note.email (Note.user note)
        | _ => Note.email (Note.user note)
        end)).
Proof.
  unfold Card.author_label.
  destruct (Note.name (Note.user note)) as [| |n];
    [| | destruct (Js.truthy n)];
    (split; [apply split_first_prefix |];
     split; [apply split_first_no_sep |];
     split; [apply split_first_cut | apply split_first_whole]).
Qed.
